(** * Dead-Simple-Budget: the balance-and-lifecycle engine of [app.js]

    A shallow embedding of the envelope ledger of [src/app.js] and the
    properties its specification states about it.

    Modelling conventions.
    - The global [state] object is threaded explicitly: every operation
      is a function [State -> State].
    - The arrays [state.envelopes] and [state.transactions] are lists.
      The envelope objects of the array are pairwise distinct objects
      ([loadState] and the [add...] operations allocate each with [new]),
      so a reference to an envelope is its index in the list, and a
      mutation through a reference is [alter] at that index.
    - Integer cents are [Z].  A dollar amount (a JS number) is an exact
      rational [Q]; [Math.round] is rounding to the nearest integer with
      ties towards plus infinity.  The results are about the range in
      which the double arithmetic of the program is exact on cents.
    - [null]/[undefined] are [None]; the empty string is the only falsy
      string.
    - Values read from the environment (fresh ids, [new Date()], the
      answer to [confirm]) are explicit arguments; [saveState] and the
      [render...] calls do not touch the state and are left out. *)

From Stdlib Require Import ZArith QArith Qround.
From stdpp Require Import base decidable option list strings gmap.

#[local] Set Warnings "-clear-no-such-hyp".
Local Open Scope Z_scope.

(** ** Money helpers *)

(** [dollarsToCents(d) = Math.round(Number(d || 0) * 100)]. *)
Definition dollarsToCents (d : Q) : Z :=
  Qfloor (d * inject_Z 100 + (1 # 2))%Q.

(** The JS expression [cents / 100] that turns cents into a dollar amount. *)
Definition centsAsDollars (cents : Z) : Q :=
  (inject_Z cents / inject_Z 100)%Q.

(** ** Data model *)

Record Envelope := mkEnvelope {
  envId : string;
  name : string;
  targetCents : Z;
  balanceCents : Z;
  isIncome : bool;
  isOverflow : bool;
  isCreditCard : bool;
  isActive : bool
}.

Record Transaction := mkTransaction {
  txId : string;
  timestamp : string;
  fromEnvelopeId : option string;
  toEnvelopeId : option string;
  amountCents : Z;
  note : string
}.

Record Settings := mkSettings {
  transactionRetentionDays : option Z
}.

Record State := mkState {
  envelopes : list Envelope;
  transactions : list Transaction;
  bankBalanceCents : Z;
  settings : Settings
}.

(** [x || null] on an optional string: a non-empty string or nothing. *)
Definition orNull (x : option string) : option string :=
  match x with
  | Some i => if decide (i = ""%string) then None else Some i
  | None => None
  end.

(** [flags] argument of the [Envelope] constructor; a missing key is [None]. *)
Record Flags := mkFlags {
  flagIncome : option bool;
  flagOverflow : option bool;
  flagCreditCard : option bool;
  flagActive : option bool
}.

Definition noFlags : Flags := mkFlags None None None None.

(** [!!x] *)
Definition toBool (x : option bool) : bool := default false x.

(** [x !== false] *)
Definition notFalse (x : option bool) : bool := default true x.

(** [new Envelope(id, name, targetCents, balanceCents, flags)] *)
Definition newEnvelope (i n : string) (t b : Z) (flags : Flags) : Envelope :=
  {| envId := i; name := n; targetCents := t; balanceCents := b;
     isIncome := toBool (flagIncome flags);
     isOverflow := toBool (flagOverflow flags);
     isCreditCard := toBool (flagCreditCard flags);
     isActive := notFalse (flagActive flags) |}.

(** [new Transaction({id, timestamp, fromEnvelopeId, toEnvelopeId,
    amountCents, note})]; [note || ''] leaves a string as it is. *)
Definition newTransaction (i ts : string) (from to : option string)
    (amount : Z) (n : string) : Transaction :=
  {| txId := i; timestamp := ts;
     fromEnvelopeId := orNull from; toEnvelopeId := orNull to;
     amountCents := amount; note := n |}.

(** Field assignments [env.f = v]. *)
Definition setName (v : string) (e : Envelope) : Envelope :=
  mkEnvelope (envId e) v (targetCents e) (balanceCents e)
    (isIncome e) (isOverflow e) (isCreditCard e) (isActive e).
Definition setTargetCents (v : Z) (e : Envelope) : Envelope :=
  mkEnvelope (envId e) (name e) v (balanceCents e)
    (isIncome e) (isOverflow e) (isCreditCard e) (isActive e).
Definition setBalanceCents (v : Z) (e : Envelope) : Envelope :=
  mkEnvelope (envId e) (name e) (targetCents e) v
    (isIncome e) (isOverflow e) (isCreditCard e) (isActive e).
Definition setIsIncome (v : bool) (e : Envelope) : Envelope :=
  mkEnvelope (envId e) (name e) (targetCents e) (balanceCents e)
    v (isOverflow e) (isCreditCard e) (isActive e).
Definition setIsOverflow (v : bool) (e : Envelope) : Envelope :=
  mkEnvelope (envId e) (name e) (targetCents e) (balanceCents e)
    (isIncome e) v (isCreditCard e) (isActive e).
Definition setIsCreditCard (v : bool) (e : Envelope) : Envelope :=
  mkEnvelope (envId e) (name e) (targetCents e) (balanceCents e)
    (isIncome e) (isOverflow e) v (isActive e).
Definition setIsActive (v : bool) (e : Envelope) : Envelope :=
  mkEnvelope (envId e) (name e) (targetCents e) (balanceCents e)
    (isIncome e) (isOverflow e) (isCreditCard e) v.

(** ** The shared state and references into it *)

Definition setEnvelopes (l : list Envelope) (s : State) : State :=
  mkState l (transactions s) (bankBalanceCents s) (settings s).
Definition setTransactions (l : list Transaction) (s : State) : State :=
  mkState (envelopes s) l (bankBalanceCents s) (settings s).

(** A mutation of the envelope object behind reference [r]. *)
Definition mutate (r : nat) (f : Envelope → Envelope) (s : State) : State :=
  setEnvelopes (alter f r (envelopes s)) s.

(** [state.envelopes.find(e => e.id === i)]: the reference of the first
    envelope with that id, together with the object found. *)
Definition findById (i : string) (envs : list Envelope) : option (nat * Envelope) :=
  list_find (λ e, envId e = i) envs.

(** [state.envelopes.find(e => p(e))]. *)
Definition findWhere (p : Envelope → bool) (envs : list Envelope)
    : option (nat * Envelope) :=
  list_find (λ e, p e = true) envs.

(** [state.envelopes.filter(e => p(e))], as the list of the references
    of the selected objects, in array order. *)
Fixpoint filterRefsFrom (p : Envelope → bool) (i : nat) (envs : list Envelope)
    : list nat :=
  match envs with
  | [] => []
  | e :: rest =>
      if p e then i :: filterRefsFrom p (S i) rest
      else filterRefsFrom p (S i) rest
  end.

Definition filterRefs (p : Envelope → bool) (envs : list Envelope) : list nat :=
  filterRefsFrom p 0 envs.

(** [refs.forEach(r => body(r))] on the shared state. *)
Definition forEachRef {A} (refs : list A) (body : A → State → State)
    (s : State) : State :=
  foldl (λ acc r, body r acc) s refs.

Definition isCoreEnvelope (env : Envelope) : bool :=
  isIncome env || isOverflow env.

Definition getIncomeEnvelope (s : State) : option (nat * Envelope) :=
  findWhere isIncome (envelopes s).

Definition getOverflowEnvelope (s : State) : option (nat * Envelope) :=
  findWhere isOverflow (envelopes s).

(** ** Balance application engine *)

Definition applyTransactionToBalances (tx : Transaction) (direction : Z)
    (s : State) : State :=
  let sign := direction in
  let s1 :=
    match orNull (fromEnvelopeId tx) with
    | Some fid =>
        match findById fid (envelopes s) with
        | Some (from, _) =>
            mutate from
              (λ e, setBalanceCents (balanceCents e - sign * amountCents tx) e) s
        | None => s
        end
    | None => s
    end in
  match orNull (toEnvelopeId tx) with
  | Some tid =>
      match findById tid (envelopes s1) with
      | Some (to, _) =>
          mutate to
            (λ e, setBalanceCents (balanceCents e + sign * amountCents tx) e) s1
      | None => s1
      end
  | None => s1
  end.

(** ** Envelope registry *)

Definition coreFlags (income overflow : bool) : Flags :=
  mkFlags (Some income) (Some overflow) (Some false) (Some true).

Definition ensureCoreEnvelopes (s : State) : State :=
  let incomeEnvs := filterRefs isIncome (envelopes s) in
  let overflowEnvs := filterRefs isOverflow (envelopes s) in
  let s1 :=
    if decide (1 < length incomeEnvs)%nat
    then forEachRef (drop 1 incomeEnvs) (λ r, mutate r (setIsIncome false)) s
    else s in
  let s2 :=
    if decide (1 < length overflowEnvs)%nat
    then forEachRef (drop 1 overflowEnvs) (λ r, mutate r (setIsOverflow false)) s1
    else s1 in
  let s3 :=
    match findWhere isIncome (envelopes s2) with
    | None =>
        setEnvelopes
          (envelopes s2 ++ [newEnvelope "env_income" "Income" 0 0 (coreFlags true false)])
          s2
    | Some (income, _) =>
        mutate income (setIsActive true) (mutate income (setTargetCents 0) s2)
    end in
  match findWhere isOverflow (envelopes s3) with
  | None =>
      setEnvelopes
        (envelopes s3 ++ [newEnvelope "env_overflow" "Overflow" 0 0 (coreFlags false true)])
        s3
  | Some (overflow, _) =>
      mutate overflow (setIsActive true) (mutate overflow (setTargetCents 0) s3)
  end.

(** [addEnvelope(name, targetDollars, flags)]; [freshId] is the generated
    ['env_' + Date.now() + '_' + random] id. *)
Definition addEnvelope (freshId : string) (nm : string) (targetDollars : Q)
    (flags : Flags) (s : State) : State :=
  if decide (nm = ""%string) then s
  else
    let env := newEnvelope freshId nm (dollarsToCents targetDollars) 0 flags in
    setEnvelopes (envelopes s ++ [env]) s.

(** The [updates] object of [updateEnvelope]; a key that is [null] or
    missing is [None]. *)
Record EnvelopeUpdates := mkEnvelopeUpdates {
  updName : option string;
  updTargetDollars : option Q;
  updIsIncome : option bool;
  updIsOverflow : option bool;
  updIsCreditCard : option bool;
  updIsActive : option bool
}.

(** [if (x != null) body(x)] *)
Definition whenGiven {A} (x : option A) (body : A → State → State)
    (s : State) : State :=
  match x with
  | Some v => body v s
  | None => s
  end.

Definition updateEnvelope (i : string) (updates : EnvelopeUpdates) (s : State)
    : State :=
  match findById i (envelopes s) with
  | None => s
  | Some (env, e) =>
      let core := isCoreEnvelope e in
      let s1 :=
        if core then s
        else
          let sa := whenGiven (updName updates) (λ v, mutate env (setName v)) s in
          whenGiven (updTargetDollars updates)
            (λ v, mutate env (setTargetCents (dollarsToCents v))) sa in
      let s2 := whenGiven (updIsIncome updates) (λ v, mutate env (setIsIncome v)) s1 in
      let s3 := whenGiven (updIsOverflow updates) (λ v, mutate env (setIsOverflow v)) s2 in
      let s4 := whenGiven (updIsCreditCard updates) (λ v, mutate env (setIsCreditCard v)) s3 in
      whenGiven (updIsActive updates)
        (λ v acc, if core then acc else mutate env (setIsActive v) acc) s4
  end.

Definition sumBy (f : Envelope → Z) (envs : list Envelope) : Z :=
  foldl (λ sum e, sum + f e) 0 envs.

Definition getTotalEnvelopesBalanceCents (s : State) : Z :=
  sumBy balanceCents (filter (λ e, isActive e = true) (envelopes s)).

(** [env.isCore] and [env.isCredit]: the [Envelope] class has no such
    properties, so the reads give [undefined], which is falsy. *)
Definition isCore (env : Envelope) : bool := false.
Definition isCredit (env : Envelope) : bool := false.

Definition getTotalAllocationsCents (s : State) : Z :=
  sumBy targetCents
    (filter
       (λ env, negb (isCore env) && negb (isCredit env) && (0 <? targetCents env) = true)
       (envelopes s)).

(** ** Transaction ledger *)

(** [addTransaction({fromEnvelopeId, toEnvelopeId, amountDollars, note, log})];
    [freshId] is the generated transaction id and [now] is
    [new Date().toISOString()]. *)
Definition addTransaction (freshId now : string)
    (from to : option string) (amountDollars : Q) (nt : string) (log : bool)
    (s : State) : State :=
  let amountCents := dollarsToCents amountDollars in
  if decide (amountCents = 0) then s
  else
    let tx := newTransaction freshId now (orNull from) (orNull to) amountCents nt in
    let s1 := applyTransactionToBalances tx 1 s in
    if log then setTransactions (transactions s1 ++ [tx]) s1 else s1.

(** The [updates] object of [updateTransaction]; [None] is a key that is
    [undefined], and an envelope id may be given as [null]. *)
Record TransactionUpdates := mkTransactionUpdates {
  updFromEnvelopeId : option (option string);
  updToEnvelopeId : option (option string);
  updAmountDollars : option Q;
  updNote : option string
}.

Definition findTransaction (i : string) (txs : list Transaction)
    : option (nat * Transaction) :=
  list_find (λ t, txId t = i) txs.

Definition updateTransaction (i : string) (updates : TransactionUpdates)
    (s : State) : State :=
  match findTransaction i (transactions s) with
  | None => s
  | Some (index, oldTx) =>
      let s1 := applyTransactionToBalances oldTx (-1) s in
      let newTx :=
        newTransaction (txId oldTx) (timestamp oldTx)
          (default (fromEnvelopeId oldTx) (updFromEnvelopeId updates))
          (default (toEnvelopeId oldTx) (updToEnvelopeId updates))
          (match updAmountDollars updates with
           | Some d => dollarsToCents d
           | None => amountCents oldTx
           end)
          (default (note oldTx) (updNote updates)) in
      let s2 := applyTransactionToBalances newTx 1 s1 in
      setTransactions (<[index := newTx]> (transactions s2)) s2
  end.

(** The body of the [forEach] of [deleteTransaction]. *)
Definition reactivate (envId : option string) (s : State) : State :=
  match orNull envId with
  | None => s
  | Some eid =>
      match findById eid (envelopes s) with
      | Some (env, e) => if negb (isActive e) then mutate env (setIsActive true) s else s
      | None => s
      end
  end.

Definition deleteTransaction (i : string) (s : State) : State :=
  match findTransaction i (transactions s) with
  | None => s
  | Some (index, tx) =>
      let s1 := forEachRef [fromEnvelopeId tx; toEnvelopeId tx] reactivate s in
      let s2 := applyTransactionToBalances tx (-1) s1 in
      setTransactions (delete index (transactions s2)) s2
  end.

(** [pruneOldTransactions()]; [clock d] is the text
    [cutoff.toISOString()] of the current date moved back by [d] days. *)
Definition pruneOldTransactions (clock : Z → string) (s : State) : State :=
  let days :=
    match transactionRetentionDays (settings s) with
    | Some d => if decide (d = 0) then 45 else d
    | None => 45
    end in
  let cutoffISO := clock days in
  setTransactions
    (filter (λ tx, String.leb cutoffISO (timestamp tx) = true) (transactions s)) s.

(** ** Envelope deletion, garbage collection and auto-allocation *)

Definition quote : string := String (Ascii.ascii_of_nat 34) EmptyString.

(** The template literal of the note of the auto-merge transaction. *)
Definition mergeNote (env : Envelope) : string :=
  "Auto-merge from deleted envelope " +:+ quote +:+ name env +:+ quote.

Definition deleteEnvelope (i : string) (ok : bool) (freshId now : string)
    (s : State) : State :=
  match findById i (envelopes s) with
  | None => s
  | Some (env, e) =>
      if isCoreEnvelope e then s
      else
        match getIncomeEnvelope s with
        | None => s
        | Some (_, income) =>
            if decide (balanceCents e ≠ 0) then
              let amountDollars := centsAsDollars (balanceCents e) in
              if negb ok then s
              else
                let s1 :=
                  addTransaction freshId now (Some (envId e)) (Some (envId income))
                    amountDollars (mergeNote e) true s in
                mutate env (setIsActive false) s1
            else mutate env (setIsActive false) s
        end
  end.

Definition usedIds (txs : list Transaction) : gset string :=
  foldl
    (λ used tx,
       let used1 :=
         match orNull (fromEnvelopeId tx) with
         | Some i => used ∪ {[ i ]}
         | None => used
         end in
       match orNull (toEnvelopeId tx) with
       | Some i => used1 ∪ {[ i ]}
       | None => used1
       end)
    ∅ txs.

Definition keepEnvelope (used : gset string) (env : Envelope) : bool :=
  if isCoreEnvelope env then true
  else if isActive env then true
  else if bool_decide (balanceCents env ≠ 0) then true
  else if bool_decide (envId env ∈ used) then true
  else false.

Definition cleanupUnusedEnvelopes (s : State) : State :=
  let used := usedIds (transactions s) in
  setEnvelopes (filter (λ env, keepEnvelope used env = true) (envelopes s)) s.

Definition isAllocationTarget (env : Envelope) : bool :=
  isActive env && negb (isCoreEnvelope env) && negb (isCreditCard env)
  && (0 <? targetCents env).

(** [autoAllocate()]; [freshId] and [now] stand for the id and timestamp
    generated for the transfers, which are never stored ([log: false]).
    [totalToAllocateCents] only appears in the text of the confirmation
    and is left out. *)
Definition autoAllocate (ok : bool) (freshId now : string) (s : State) : State :=
  match getIncomeEnvelope s with
  | None => s
  | Some (income, _) =>
      let targets := filterRefs isAllocationTarget (envelopes s) in
      if decide (length targets = 0%nat) then s
      else if negb ok then s
      else
        forEachRef targets
          (λ env acc,
             match envelopes acc !! env, envelopes acc !! income with
             | Some e, Some inc =>
                 let amountDollars := centsAsDollars (targetCents e) in
                 addTransaction freshId now (Some (envId inc)) (Some (envId e))
                   amountDollars "Auto allocation" false acc
             | _, _ => acc
             end)
          s
  end.

(** ** The public operations as a transition system *)

Inductive Op :=
| OpAddEnvelope (freshId nm : string) (targetDollars : Q) (flags : Flags)
| OpUpdateEnvelope (i : string) (updates : EnvelopeUpdates)
| OpDeleteEnvelope (i : string) (ok : bool) (freshId now : string)
| OpAddTransaction (freshId now : string) (from to : option string)
    (amountDollars : Q) (nt : string) (log : bool)
| OpUpdateTransaction (i : string) (updates : TransactionUpdates)
| OpDeleteTransaction (i : string)
| OpAutoAllocate (ok : bool) (freshId now : string)
| OpPruneOldTransactions
| OpCleanupUnusedEnvelopes.

Definition step (clock : Z → string) (op : Op) (s : State) : State :=
  match op with
  | OpAddEnvelope freshId nm targetDollars flags =>
      addEnvelope freshId nm targetDollars flags s
  | OpUpdateEnvelope i updates => updateEnvelope i updates s
  | OpDeleteEnvelope i ok freshId now => deleteEnvelope i ok freshId now s
  | OpAddTransaction freshId now from to amountDollars nt log =>
      addTransaction freshId now from to amountDollars nt log s
  | OpUpdateTransaction i updates => updateTransaction i updates s
  | OpDeleteTransaction i => deleteTransaction i s
  | OpAutoAllocate ok freshId now => autoAllocate ok freshId now s
  | OpPruneOldTransactions => pruneOldTransactions clock s
  | OpCleanupUnusedEnvelopes => cleanupUnusedEnvelopes s
  end.

(** ** Further operations of the program *)

Definition getTotalNonCardEnvelopesBalanceCents (s : State) : Z :=
  sumBy balanceCents
    (filter (λ e, isActive e && negb (isCreditCard e) = true) (envelopes s)).

Definition getTotalCreditCardBalanceCents (s : State) : Z :=
  sumBy balanceCents
    (filter (λ e, isActive e && isCreditCard e = true) (envelopes s)).

Definition updateBankBalance (dollars : Q) (s : State) : State :=
  mkState (envelopes s) (transactions s) (dollarsToCents dollars) (settings s).

(** [addCreditCardEnvelope(name)]; [answer] is what [prompt] returns when
    it is asked ([None] when the dialog is cancelled), [freshId] the
    generated ['card_...'] id. *)
Definition addCreditCardEnvelope (freshId : string) (nm answer : option string)
    (s : State) : State :=
  let cardName :=
    match orNull nm with
    | Some n => Some n
    | None => answer
    end in
  match orNull cardName with
  | None => s
  | Some n =>
      let env :=
        newEnvelope freshId n 0 0
          (mkFlags (Some false) (Some false) (Some true) (Some true)) in
      setEnvelopes (envelopes s ++ [env]) s
  end.

(** [addIncome(amountDollars, note)] *)
Definition addIncome (freshId now : string) (amountDollars : Q)
    (nt : option string) (s : State) : State :=
  match getIncomeEnvelope s with
  | None => s
  | Some (_, incomeEnv) =>
      addTransaction freshId now None (Some (envId incomeEnv)) amountDollars
        (default "Income" (orNull nt)) true s
  end.

(** The persisted blob as [JSON.parse] returns it.  The fields have the
    types [saveState] writes; a key may be missing. *)
Record ParsedEnvelope := mkParsedEnvelope {
  pId : string;
  pName : string;
  pTargetCents : Z;
  pBalanceCents : Z;
  pIsIncome : option bool;
  pIsOverflow : option bool;
  pIsCreditCard : option bool;
  pIsActive : option bool
}.

Record ParsedTransaction := mkParsedTransaction {
  ptId : string;
  ptTimestamp : string;
  ptFromEnvelopeId : option string;
  ptToEnvelopeId : option string;
  ptAmountCents : Z;
  ptNote : option string
}.

Record ParsedState := mkParsedState {
  pEnvelopes : option (list ParsedEnvelope);
  pTransactions : option (list ParsedTransaction);
  pBankBalanceCents : option Z;
  pSettings : option Settings
}.

(** [new State()] *)
Definition newState : State := mkState [] [] 0 (mkSettings (Some 30)).

(** [loadState()]; [raw] is the stored blob, [None] when there is none or
    it does not parse. *)
Definition loadState (raw : option ParsedState) : State :=
  match raw with
  | None => newState
  | Some parsed =>
      mkState
        ((λ e, newEnvelope (pId e) (pName e) (pTargetCents e) (pBalanceCents e)
                 (mkFlags (pIsIncome e) (pIsOverflow e) (pIsCreditCard e)
                    (pIsActive e)))
           <$> default [] (pEnvelopes parsed))
        ((λ t, newTransaction (ptId t) (ptTimestamp t) (ptFromEnvelopeId t)
                 (ptToEnvelopeId t) (ptAmountCents t) (default "" (ptNote t)))
           <$> default [] (pTransactions parsed))
        (default 0 (pBankBalanceCents parsed))
        (default (settings newState) (pSettings parsed))
  end.

(** What [saveState()] stores, read back with [JSON.parse]: the plain
    data of the state, every key present. *)
Definition saveState (s : State) : option ParsedState :=
  Some
    (mkParsedState
       (Some
          ((λ e, mkParsedEnvelope (envId e) (name e) (targetCents e)
                   (balanceCents e) (Some (isIncome e)) (Some (isOverflow e))
                   (Some (isCreditCard e)) (Some (isActive e)))
             <$> envelopes s))
       (Some
          ((λ t, mkParsedTransaction (txId t) (timestamp t) (fromEnvelopeId t)
                   (toEnvelopeId t) (amountCents t) (Some (note t)))
             <$> transactions s))
       (Some (bankBalanceCents s))
       (Some (settings s))).

(** The state part of [init()]: load, repair, prune, collect. *)
Definition init (clock : Z → string) (raw : option ParsedState) : State :=
  cleanupUnusedEnvelopes
    (pruneOldTransactions clock (ensureCoreEnvelopes (loadState raw))).

(** The click handler of the transaction form; the arguments are the
    values of the two selects, the amount field read with [Number]
    ([None] for [NaN]) and the note field; the guard is
    [!amount || amount <= 0]. *)
Definition submitTransactionForm (freshId now : string)
    (fromValue toValue : string) (amount : option Q) (nt : string)
    (s : State) : State :=
  let fromId := orNull (Some fromValue) in
  let toId := orNull (Some toValue) in
  match fromId, toId with
  | None, None => s
  | _, _ =>
      match amount with
      | None => s
      | Some a =>
          if Qeq_bool a 0 || Qle_bool a 0 then s
          else addTransaction freshId now fromId toId a nt true s
      end
  end.

(** The click handler of the Edit button of a transaction; [amount] is
    the answer to the first prompt read with [Number], [answer] the
    answer to the note prompt ([None] when cancelled). *)
Definition submitTransactionEdit (tx : Transaction) (amount : option Q)
    (answer : option string) (s : State) : State :=
  match amount with
  | None => s
  | Some a =>
      if Qeq_bool a 0 || Qle_bool a 0 then s
      else
        updateTransaction (txId tx)
          (mkTransactionUpdates None None (Some a) (Some (default (note tx) answer)))
          s
  end.

(** ** Specification-side vocabulary *)

(** The reference an optional envelope id resolves to: none when the id
    is absent or empty, or when no envelope carries it. *)
Definition resolve (o : option string) (envs : list Envelope) : option nat :=
  match orNull o with
  | Some i => fst <$> findById i envs
  | None => None
  end.

(** The change a transaction applied in direction [d] makes to the
    balance of the envelope behind reference [r]. *)
Definition balanceDelta (tx : Transaction) (d : Z) (envs : list Envelope)
    (r : nat) : Z :=
  (if decide (resolve (toEnvelopeId tx) envs = Some r) then d * amountCents tx else 0)
  - (if decide (resolve (fromEnvelopeId tx) envs = Some r) then d * amountCents tx else 0).

(** "Strictly earlier", for timestamps compared as strings. *)
Definition lexEarlier (a b : string) : Prop := String.ltb a b = true.

#[global] Instance lexEarlier_dec a b : Decision (lexEarlier a b).
Proof. unfold lexEarlier. apply _. Defined.

(** The retention window the pruner works with. *)
Definition retentionWindow (s : State) : Z :=
  match transactionRetentionDays (settings s) with
  | Some d => if decide (d = 0) then 45 else d
  | None => 45
  end.

(** The total of the targets of the envelopes auto-allocation would fund. *)
Definition eligibleTargetsCents (s : State) : Z :=
  sumBy targetCents (filter (λ e, isAllocationTarget e = true) (envelopes s)).

(** A transaction object as the constructor leaves it: its envelope ids
    are [null] or non-empty. *)
Definition constructed (tx : Transaction) : Prop :=
  orNull (fromEnvelopeId tx) = fromEnvelopeId tx
  ∧ orNull (toEnvelopeId tx) = toEnvelopeId tx.

Definition references (i : string) (tx : Transaction) : Prop :=
  fromEnvelopeId tx = Some i ∨ toEnvelopeId tx = Some i.

#[global] Instance references_dec i tx : Decision (references i tx).
Proof. unfold references. apply _. Defined.

(** An envelope the garbage collector may purge. *)
Definition purgeable (txs : list Transaction) (e : Envelope) : Prop :=
  isCoreEnvelope e = false ∧ isActive e = false ∧ balanceCents e = 0
  ∧ ¬ Exists (references (envId e)) txs.

#[global] Instance purgeable_dec txs e : Decision (purgeable txs e).
Proof. unfold purgeable. apply _. Defined.

(** The number of envelopes that carry a flag. *)
Definition countWhere (p : Envelope → bool) (envs : list Envelope) : nat :=
  length (filter (λ e, p e = true) envs).

Definition settled (e : Envelope) : Prop :=
  isActive e = true ∧ targetCents e = 0.

(** Exactly one Income and exactly one Overflow envelope, both active and
    without a target. *)
Definition CoreInvariant (envs : list Envelope) : Prop :=
  countWhere isIncome envs = 1%nat
  ∧ countWhere isOverflow envs = 1%nat
  ∧ Forall (λ e, isCoreEnvelope e = true → settled e) envs.

(** What the duplicate repair of [ensureCoreEnvelopes] amounts to: the
    first envelope with the flag keeps it, every later one loses it. *)
Fixpoint keepFirst (p : Envelope → bool) (clear : Envelope → Envelope)
    (envs : list Envelope) : list Envelope :=
  match envs with
  | [] => []
  | e :: rest =>
      if p e then e :: ((λ x, if p x then clear x else x) <$> rest)
      else e :: keepFirst p clear rest
  end.

(** What the second half of [ensureCoreEnvelopes] amounts to, for one flag. *)
Definition ensureOne (p : Envelope → bool) (fresh : Envelope)
    (envs : list Envelope) : list Envelope :=
  match findWhere p envs with
  | None => envs ++ [fresh]
  | Some (r, _) => alter (setIsActive true) r (alter (setTargetCents 0) r envs)
  end.

(** What an operation may do to an envelope without disturbing the core
    invariant: keep its id and its two core flags, and keep a settled
    core envelope settled. *)
Definition coreAlike (e e' : Envelope) : Prop :=
  envId e' = envId e ∧ isIncome e' = isIncome e ∧ isOverflow e' = isOverflow e
  ∧ (isCoreEnvelope e = true → settled e → settled e').

Definition coreStable (l l' : list Envelope) : Prop := Forall2 coreAlike l l'.

(** The operations that leave the two core flags as they are: an
    envelope is added without them, and an update gives them, if at all,
    the value they have. *)
Definition keepsCoreFlags (s : State) (op : Op) : Prop :=
  match op with
  | OpAddEnvelope _ _ _ flags =>
      toBool (flagIncome flags) = false ∧ toBool (flagOverflow flags) = false
  | OpUpdateEnvelope i updates =>
      ∀ r e, findById i (envelopes s) = Some (r, e) →
        default (isIncome e) (updIsIncome updates) = isIncome e
        ∧ default (isOverflow e) (updIsOverflow updates) = isOverflow e
  | _ => True
  end.

Definition AllPositive (txs : list Transaction) : Prop :=
  Forall (λ tx, 0 < amountCents tx) txs.

(** The operations that bring no amount below one cent into the ledger:
    the amount given to [addTransaction] does not convert to a negative
    number, a patch of [updateTransaction] leaves the amount alone or
    gives one that converts to a positive number, and [deleteEnvelope] is
    not merging a negative balance. *)
Definition amountsStayPositive (s : State) (op : Op) : Prop :=
  match op with
  | OpAddTransaction _ _ _ _ amountDollars _ _ => 0 ≤ dollarsToCents amountDollars
  | OpUpdateTransaction _ updates =>
      match updAmountDollars updates with
      | Some d => 0 < dollarsToCents d
      | None => True
      end
  | OpDeleteEnvelope i _ _ _ =>
      ∀ r e, findById i (envelopes s) = Some (r, e) → 0 ≤ balanceCents e
  | _ => True
  end.

(** The transaction refers to the envelope behind reference [r]. *)
Definition refersTo (tx : Transaction) (envs : list Envelope) (r : nat) : Prop :=
  resolve (fromEnvelopeId tx) envs = Some r ∨ resolve (toEnvelopeId tx) envs = Some r.

#[global] Instance refersTo_dec tx envs r : Decision (refersTo tx envs r).
Proof. unfold refersTo. apply _. Defined.

(** Envelope ids identify: no two envelopes share one and none is empty. *)
Definition wellFormedIds (envs : list Envelope) : Prop :=
  NoDup (envId <$> envs) ∧ ""%string ∉ envId <$> envs.





(** [alter] at the reference an id resolves to, if it resolves. *)
Definition alterAt (o : option nat) (g : Envelope → Envelope)
    (l : list Envelope) : list Envelope :=
  match o with
  | Some r => alter g r l
  | None => l
  end.

(** The id resolves to an envelope that is active. *)
Definition resolvesToActive (o : option string) (envs : list Envelope) : bool :=
  match resolve o envs with
  | Some r => from_option isActive false (envs !! r)
  | None => false
  end.



(** What the registry repair leaves of an envelope: who it is and what
    it holds. *)
Definition sameAccount (e e' : Envelope) : Prop :=
  envId e' = envId e ∧ name e' = name e ∧ balanceCents e' = balanceCents e
  ∧ isCreditCard e' = isCreditCard e.

(** Every envelope of [l] is still at its place in [l']. *)
Definition keptInPlace (R : Envelope → Envelope → Prop)
    (l l' : list Envelope) : Prop :=
  ∀ r e, l !! r = Some e → ∃ e', l' !! r = Some e' ∧ R e e'.

(** ** Sample states *)

(** [new State()] *)
Definition freshState : State := mkState [] [] 0 (mkSettings (Some 30)).

Definition initialState : State := ensureCoreEnvelopes freshState.

(** Groceries (target 50.00) was created and deleted again; a card
    envelope was created with a target. *)
Definition afterDeletingGroceries : State :=
  deleteEnvelope "env_g" true "tx_2" "2026-10-20T09:00:00.000Z"
    (addEnvelope "card_v" "Visa" (25 # 1) (mkFlags None None (Some true) None)
       (addEnvelope "env_g" "Groceries" (50 # 1) noFlags initialState)).

(** A clock on 2 November 2026. *)
Definition sampleClock (days : Z) : string :=
  if decide (days = 0) then "2026-11-02T12:00:00.000Z"
  else if decide (days = 30) then "2026-10-03T12:00:00.000Z"
  else "2026-09-18T12:00:00.000Z".

Definition octoberIncome : Transaction :=
  newTransaction "tx_1" "2026-10-01T08:00:00.000Z" None (Some "env_income")
    10000 "Income".

Definition zeroRetentionState : State :=
  mkState (envelopes initialState) [octoberIncome] 0 (mkSettings (Some 0)).

(** Groceries was created and then overspent by 5.00. *)
Definition overspentState : State :=
  addTransaction "tx_1" "2026-10-05T12:30:00.000Z" (Some "env_g") None (5 # 1)
    "Lunch" true
    (addEnvelope "env_g" "Groceries" (50 # 1) noFlags initialState).

(** Income of 100.00 was received and Groceries (target 50.00) created. *)
Definition unallocatedState : State :=
  addEnvelope "env_g" "Groceries" (50 # 1) noFlags
    (addTransaction "tx_1" "2026-10-01T08:00:00.000Z" None (Some "env_income")
       (100 # 1) "Income" true initialState).

(** ... and the auto-allocation was run. *)
Definition fundedState : State :=
  autoAllocate true "tx_a" "2026-10-02T08:00:00.000Z" unallocatedState.

Definition fundedIncome : Envelope :=
  mkEnvelope "env_income" "Income" 0 5000 true false false true.

Definition fundedGroceries : Envelope :=
  mkEnvelope "env_g" "Groceries" 5000 5000 false false false true.

(** ... and Groceries was deleted, its balance merged into Income. *)
Definition mergedState : State :=
  deleteEnvelope "env_g" true "tx_2" "2026-10-20T09:00:00.000Z" fundedState.

Definition mergeTransaction : Transaction :=
  mkTransaction "tx_2" "2026-10-20T09:00:00.000Z" (Some "env_g")
    (Some "env_income") 5000 (mergeNote fundedGroceries).

Definition lunchTransaction : Transaction :=
  mkTransaction "tx_1" "2026-10-05T12:30:00.000Z" (Some "env_g") None 500 "Lunch".

Definition unallocatedIncome : Envelope :=
  mkEnvelope "env_income" "Income" 0 10000 true false false true.

(** A stored state in which two envelopes claim to be Income and none is
    Overflow. *)
Definition duplicatedState : State :=
  mkState
    [mkEnvelope "env_a" "Salary" 300 1200 true false false false;
     mkEnvelope "env_b" "Bonus" 0 500 true false false true]
    [] 0 (mkSettings None).

(** * Properties *)

(** ** Records and references *)

Ltac envelope_eq :=
  repeat match goal with e : Envelope |- _ => destruct e end;
  unfold setBalanceCents, setIsActive, setTargetCents, setIsIncome,
    setIsOverflow, setIsCreditCard, setName; simpl in *;
  try (f_equal; (lia || congruence)).


Lemma envelopes_mutate r f s :
  envelopes (mutate r f s) = alter f r (envelopes s).
Proof. done. Qed.


Section find_alter.
Context {A : Type} (P : A → Prop) `{∀ x, Decision (P x)} (f : A → A).
Hypothesis f_keeps : ∀ x, P (f x) ↔ P x.

(** Mutating a field the search does not look at moves no reference. *)
Lemma list_find_alter_fst (r : nat) (l : list A) :
  fst <$> list_find P (alter f r l) = fst <$> list_find P l.
Proof.
  revert r. induction l as [|x l IH]; intros r; [done|].
  destruct r as [|r]; simpl.
  - pose proof (f_keeps x) as [Hfx Hxf].
    destruct (decide (P (f x))), (decide (P x)); try done; tauto.
  - destruct (decide (P x)); [done|].
    specialize (IH r). change (list_alter f r l) with (alter f r l).
    destruct (list_find P (alter f r l)) as [[]|], (list_find P l) as [[]|];
      simpl in *; congruence.
Qed.
End find_alter.

Lemma findById_alter i f r envs :
  (∀ e, envId (f e) = envId e) →
  fst <$> findById i (alter f r envs) = fst <$> findById i envs.
Proof.
  intros Hid. unfold findById. apply list_find_alter_fst.
  intros x. by rewrite Hid.
Qed.



(** ** The balance engine, reference by reference *)

Lemma transactions_apply tx d s :
  transactions (applyTransactionToBalances tx d s) = transactions s.
Proof.
  unfold applyTransactionToBalances.
  repeat (case_match; simpl; try done).
Qed.

Lemma settings_apply tx d s :
  settings (applyTransactionToBalances tx d s) = settings s
  ∧ bankBalanceCents (applyTransactionToBalances tx d s) = bankBalanceCents s.
Proof.
  unfold applyTransactionToBalances.
  repeat (case_match; simpl; try done).
Qed.

Lemma apply_lookup tx d s r :
  envelopes (applyTransactionToBalances tx d s) !! r
  = (λ e, setBalanceCents (balanceCents e + balanceDelta tx d (envelopes s) r) e)
      <$> envelopes s !! r.
Proof.
  unfold applyTransactionToBalances, balanceDelta, resolve.
  set (a := d * amountCents tx).
  set (fromF := λ e, setBalanceCents (balanceCents e - a) e).
  set (toF := λ e, setBalanceCents (balanceCents e + a) e).
  assert (HidF : ∀ e, envId (fromF e) = envId e) by done.
  destruct (orNull (fromEnvelopeId tx)) as [fid|];
    [destruct (findById fid (envelopes s)) as [[from ef]|] eqn:Hfrom|];
    (destruct (orNull (toEnvelopeId tx)) as [tid|];
     [|simpl; rewrite ?list_lookup_alter; repeat case_decide; simplify_eq/=;
       destruct (envelopes s !! r) as [e|]; simpl; try done; f_equal;
       envelope_eq]).
  - pose proof (findById_alter tid fromF from (envelopes s) HidF) as Hto.
    simpl. destruct (findById tid (alter fromF from (envelopes s)))
      as [[to et]|] eqn:Hto'; simpl in Hto;
      destruct (findById tid (envelopes s)) as [[to' et']|]; simplify_eq/=;
      rewrite ?list_lookup_alter; repeat case_decide; simplify_eq/=;
      destruct (envelopes s !! r) as [e|]; simpl; try done; f_equal;
      subst fromF toF a; envelope_eq.
  - destruct (findById tid (envelopes s)) as [[to et]|]; simpl;
      rewrite ?list_lookup_alter; repeat case_decide; simplify_eq/=;
      destruct (envelopes s !! r) as [e|]; simpl; try done; f_equal;
      subst fromF toF a; envelope_eq.
  - destruct (findById tid (envelopes s)) as [[to et]|]; simpl;
      rewrite ?list_lookup_alter; repeat case_decide; simplify_eq/=;
      destruct (envelopes s !! r) as [e|]; simpl; try done; f_equal;
      subst fromF toF a; envelope_eq.
Qed.

Lemma findById_ids i (l1 l2 : list Envelope) :
  envId <$> l1 = envId <$> l2 →
  fst <$> findById i l1 = fst <$> findById i l2.
Proof.
  intros Hids. unfold findById.
  pose proof (list_find_fmap envId (λ x, x = i) l1) as H1.
  pose proof (list_find_fmap envId (λ x, x = i) l2) as H2.
  rewrite Hids, H2 in H1. unfold compose in H1.
  destruct (list_find (λ e, envId e = i) l1) as [[]|],
    (list_find (λ e, envId e = i) l2) as [[]|]; simpl in *; congruence.
Qed.

Lemma resolve_ids o (l1 l2 : list Envelope) :
  envId <$> l1 = envId <$> l2 → resolve o l1 = resolve o l2.
Proof.
  intros Hids. unfold resolve. destruct (orNull o); [|done].
  by apply findById_ids.
Qed.

Lemma ids_apply tx d s :
  envId <$> envelopes (applyTransactionToBalances tx d s) = envId <$> envelopes s.
Proof.
  apply list_eq; intros r. rewrite !list_lookup_fmap, apply_lookup.
  by destruct (envelopes s !! r).
Qed.

Lemma state_eq (s1 s2 : State) :
  envelopes s1 = envelopes s2 → transactions s1 = transactions s2 →
  bankBalanceCents s1 = bankBalanceCents s2 → settings s1 = settings s2 →
  s1 = s2.
Proof. destruct s1, s2; simpl; congruence. Qed.


(** ** Aggregate queries *)

Lemma getTotalAllocationsCents_all_positive_targets s :
  getTotalAllocationsCents s
  = sumBy targetCents (filter (λ e, 0 < targetCents e) (envelopes s)).
Proof.
  unfold getTotalAllocationsCents. f_equal.
  apply list_filter_iff. intros e. unfold isCore, isCredit. simpl.
  by rewrite Z.ltb_lt.
Qed.

(** C10: the claim is that [getTotalAllocationsCents] sums [targetCents]
    over the eligible envelopes only (active, non-core, not a card,
    positive target).  On a state with a deleted envelope and a card that
    both carry a target the function returns their total, although no
    envelope is eligible. *)
Theorem getTotalAllocationsCents_counts_ineligible :
  getTotalAllocationsCents afterDeletingGroceries = 7500
  ∧ eligibleTargetsCents afterDeletingGroceries = 0.
Proof. by vm_compute. Qed.

(** ** Retention pruner *)

Lemma leb_not_earlier (cutoff ts : string) :
  String.leb cutoff ts = true ↔ ¬ lexEarlier ts cutoff.
Proof.
  unfold lexEarlier, String.leb, String.ltb.
  rewrite (String.compare_antisym cutoff ts).
  destruct (String.compare ts cutoff); simpl; split; congruence.
Qed.

(** C7, amended: [pruneOldTransactions] removes exactly the transactions
    whose timestamp string is lexicographically strictly earlier than the
    cutoff "now minus d days", where d is [transactionRetentionDays] when
    that is set and not zero and 45 otherwise; it changes no envelope. *)
Theorem pruneOldTransactions_spec (clock : Z → string) (s : State) :
  transactions (pruneOldTransactions clock s)
  = filter (λ tx, ¬ lexEarlier (timestamp tx) (clock (retentionWindow s)))
      (transactions s)
  ∧ envelopes (pruneOldTransactions clock s) = envelopes s.
Proof.
  split; [|done]. unfold pruneOldTransactions, retentionWindow. simpl.
  apply list_filter_iff. intros tx. apply leb_not_earlier.
Qed.

(** C7 as stated fails when [transactionRetentionDays] is 0: the cutoff
    is then 45 days back, and a transaction older than "now minus 0 days"
    is kept. *)
Lemma pruneOldTransactions_zero_days_keeps :
  transactionRetentionDays (settings zeroRetentionState) = Some 0
  ∧ transactions (pruneOldTransactions sampleClock zeroRetentionState)
    ≠ filter (λ tx, ¬ lexEarlier (timestamp tx) (sampleClock 0))
        (transactions zeroRetentionState).
Proof. split; [done|]. by vm_compute. Qed.

(** ** Envelope garbage collector *)

Lemma orNull_Some o i : orNull o = Some i ↔ o = Some i ∧ i ≠ ""%string.
Proof.
  unfold orNull. destruct o as [j|]; [|naive_solver].
  case_decide; naive_solver.
Qed.

Lemma orNull_idemp o : orNull (orNull o) = orNull o.
Proof.
  destruct (orNull o) as [i|] eqn:Ho; [|done].
  apply orNull_Some in Ho as [_ Hi]. simpl. by case_decide.
Qed.

Lemma newTransaction_constructed i ts from to amount n :
  constructed (newTransaction i ts from to amount n).
Proof. split; apply orNull_idemp. Qed.

Lemma usedIds_spec (txs : list Transaction) (i : string) :
  i ∈ usedIds txs
  ↔ Exists (λ tx, orNull (fromEnvelopeId tx) = Some i
                  ∨ orNull (toEnvelopeId tx) = Some i) txs.
Proof.
  unfold usedIds.
  enough (∀ acc : gset string,
    i ∈ foldl
      (λ used tx,
         let used1 :=
           match orNull (fromEnvelopeId tx) with
           | Some i => used ∪ {[ i ]}
           | None => used
           end in
         match orNull (toEnvelopeId tx) with
         | Some i => used1 ∪ {[ i ]}
         | None => used1
         end) acc txs
    ↔ i ∈ acc ∨ Exists (λ tx, orNull (fromEnvelopeId tx) = Some i
                              ∨ orNull (toEnvelopeId tx) = Some i) txs) as Hgen.
  { rewrite Hgen. set_solver. }
  induction txs as [|tx txs IH]; intros acc; simpl.
  - rewrite Exists_nil. tauto.
  - rewrite IH, Exists_cons.
    destruct (orNull (fromEnvelopeId tx)), (orNull (toEnvelopeId tx));
      set_solver.
Qed.

Lemma usedIds_references (txs : list Transaction) (i : string) :
  Forall constructed txs →
  i ∈ usedIds txs ↔ Exists (references i) txs.
Proof.
  intros Hwf. rewrite usedIds_spec, !Exists_exists.
  split; intros (tx & Hin & Href); exists tx; (split; [done|]);
    pose proof (proj1 (Forall_forall _ _) Hwf tx Hin) as [Hf Ht];
    unfold references in *; rewrite Hf, Ht in *; done.
Qed.

Lemma keepEnvelope_spec (txs : list Transaction) (e : Envelope) :
  Forall constructed txs →
  keepEnvelope (usedIds txs) e = true ↔ ¬ purgeable txs e.
Proof.
  intros Hwf. unfold keepEnvelope, purgeable.
  rewrite <- (usedIds_references txs (envId e) Hwf).
  destruct (isCoreEnvelope e); [naive_solver|].
  destruct (isActive e); [naive_solver|].
  repeat case_bool_decide; naive_solver.
Qed.

(** C8: [cleanupUnusedEnvelopes] removes exactly the envelopes that are
    non-core, inactive, have a zero balance and whose id no remaining
    transaction refers to, and keeps the others in their order; so it
    never removes a core, active, nonzero-balance or still-referenced
    envelope.  The transactions are the objects the [Transaction]
    constructor builds. *)
Theorem cleanupUnusedEnvelopes_spec (s : State) :
  Forall constructed (transactions s) →
  envelopes (cleanupUnusedEnvelopes s)
  = filter (λ e, ¬ purgeable (transactions s) e) (envelopes s)
  ∧ transactions (cleanupUnusedEnvelopes s) = transactions s
  ∧ ∀ e, e ∈ envelopes s →
      isCoreEnvelope e = true ∨ isActive e = true ∨ balanceCents e ≠ 0
      ∨ Exists (references (envId e)) (transactions s) →
      e ∈ envelopes (cleanupUnusedEnvelopes s).
Proof.
  intros Hwf.
  assert (Henvs : envelopes (cleanupUnusedEnvelopes s)
    = filter (λ e, ¬ purgeable (transactions s) e) (envelopes s)).
  { unfold cleanupUnusedEnvelopes. simpl. apply list_filter_iff.
    intros e. by apply keepEnvelope_spec. }
  split; [done|]. split; [done|].
  intros e Hin Hkeep. rewrite Henvs. apply list_elem_of_filter.
  split; [|done]. unfold purgeable. intros (Hcore & Hact & Hbal & Href).
  destruct Hkeep as [?|[?|[?|?]]]; congruence.
Qed.

(** ** Counting flags *)

Section flags.
Context (p : Envelope → bool).

Lemma countWhere_cons e l :
  countWhere p (e :: l) = ((if p e then 1 else 0) + countWhere p l)%nat.
Proof.
  unfold countWhere. rewrite filter_cons.
  destruct (p e); by case_decide.
Qed.

Lemma countWhere_app l1 l2 :
  countWhere p (l1 ++ l2) = (countWhere p l1 + countWhere p l2)%nat.
Proof. unfold countWhere. by rewrite filter_app, length_app. Qed.

Lemma countWhere_pos l j y :
  l !! j = Some y → p y = true → (1 ≤ countWhere p l)%nat.
Proof.
  revert j. induction l as [|a l IH]; intros [|j] Hj Hy; simplify_eq/=;
    rewrite countWhere_cons.
  - rewrite Hy. lia.
  - specialize (IH j Hj Hy). lia.
Qed.

Lemma countWhere_unique l i j x y :
  (countWhere p l ≤ 1)%nat →
  l !! i = Some x → p x = true → l !! j = Some y → p y = true → i = j.
Proof.
  revert i j. induction l as [|a l IH]; intros i j Hc Hi Hx Hj Hy; [done|].
  rewrite countWhere_cons in Hc.
  destruct i as [|i], j as [|j]; simplify_eq/=; [done|..].
  - rewrite Hx in Hc. pose proof (countWhere_pos l j y Hj Hy). lia.
  - rewrite Hy in Hc. pose proof (countWhere_pos l i x Hi Hx). lia.
  - f_equal. apply (IH i j); [lia|done..].
Qed.

Lemma countWhere_none l :
  Forall (λ e, ¬ p e = true) l → countWhere p l = 0%nat.
Proof.
  induction 1 as [|e l He _ IH]; [done|].
  rewrite countWhere_cons, IH. by destruct (p e).
Qed.


Lemma countWhere_alter (f : Envelope → Envelope) r l :
  (∀ x, p (f x) = p x) → countWhere p (alter f r l) = countWhere p l.
Proof.
  intros Hf. revert r. induction l as [|e l IH]; intros [|r]; simpl; try done.
  - by rewrite !countWhere_cons, Hf.
  - rewrite !countWhere_cons. f_equal. apply IH.
Qed.

Lemma length_filterRefsFrom i l :
  length (filterRefsFrom p i l) = countWhere p l.
Proof.
  revert i. induction l as [|e l IH]; intros i; [done|].
  rewrite countWhere_cons. simpl. destruct (p e); simpl; by rewrite IH.
Qed.

Lemma filterRefsFrom_ext i (l1 l2 : list Envelope) :
  p <$> l1 = p <$> l2 → filterRefsFrom p i l1 = filterRefsFrom p i l2.
Proof.
  revert i l2. induction l1 as [|a l1 IH]; intros i [|b l2] Heq;
    simplify_eq/=; [done|].
  rewrite (IH (S i) l2); [|done]. by replace (p b) with (p a).
Qed.

Lemma findWhere_Some l r e :
  findWhere p l = Some (r, e) → l !! r = Some e ∧ p e = true.
Proof. unfold findWhere. rewrite list_find_Some. naive_solver. Qed.

Lemma findWhere_None l :
  findWhere p l = None → Forall (λ e, ¬ p e = true) l.
Proof. unfold findWhere. by rewrite list_find_None. Qed.

Lemma findWhere_is_Some l :
  (1 ≤ countWhere p l)%nat → is_Some (findWhere p l).
Proof.
  intros Hc. destruct (findWhere p l) eqn:Hf; [done|].
  apply findWhere_None, countWhere_none in Hf. lia.
Qed.
End flags.

(** ** The duplicate repair of [ensureCoreEnvelopes] *)

Lemma forEachRef_cons {A} (r : A) refs (body : A → State → State) s :
  forEachRef (r :: refs) body s = forEachRef refs body (body r s).
Proof. done. Qed.


Lemma alter_middle {A} (f : A → A) (pre : list A) x l :
  alter f (length pre) (pre ++ x :: l) = pre ++ f x :: l.
Proof.
  induction pre as [|a pre IH]; [done|]. simpl. f_equal. apply IH.
Qed.

Section demote.
Context (p : Envelope → bool) (clear : Envelope → Envelope).

Lemma clear_all_refs l : ∀ pre s,
  envelopes s = pre ++ l →
  envelopes (forEachRef (filterRefsFrom p (length pre) l) (λ r, mutate r clear) s)
  = pre ++ ((λ x, if p x then clear x else x) <$> l).
Proof.
  induction l as [|e l IH]; intros pre s Hs; [done|].
  simpl. destruct (p e) eqn:Hp.
  - rewrite forEachRef_cons.
    replace (S (length pre)) with (length (pre ++ [clear e]))
      by (rewrite length_app; simpl; lia).
    rewrite IH; [by rewrite <- app_assoc|].
    rewrite envelopes_mutate, Hs, alter_middle. by rewrite <- app_assoc.
  - replace (S (length pre)) with (length (pre ++ [e]))
      by (rewrite length_app; simpl; lia).
    rewrite IH; [by rewrite <- app_assoc|]. by rewrite Hs, <- app_assoc.
Qed.

Lemma clear_later_refs l : ∀ pre s,
  envelopes s = pre ++ l →
  envelopes
    (forEachRef (drop 1 (filterRefsFrom p (length pre) l)) (λ r, mutate r clear) s)
  = pre ++ keepFirst p clear l.
Proof.
  induction l as [|e l IH]; intros pre s Hs; [done|].
  simpl. destruct (p e) eqn:Hp.
  - simpl. rewrite drop_0.
    replace (S (length pre)) with (length (pre ++ [e]))
      by (rewrite length_app; simpl; lia).
    rewrite clear_all_refs; [by rewrite <- app_assoc|].
    by rewrite Hs, <- app_assoc.
  - replace (S (length pre)) with (length (pre ++ [e]))
      by (rewrite length_app; simpl; lia).
    rewrite IH; [by rewrite <- app_assoc|]. by rewrite Hs, <- app_assoc.
Qed.

(** The guarded loop [if (refs.length > 1) refs.slice(1).forEach(clear)],
    with the references taken from a list that has the same flags. *)
Lemma demote_envelopes (orig : list Envelope) s :
  p <$> orig = p <$> envelopes s →
  envelopes
    (if decide (1 < length (filterRefs p orig))%nat
     then forEachRef (drop 1 (filterRefs p orig)) (λ r, mutate r clear) s
     else s)
  = keepFirst p clear (envelopes s).
Proof.
  intros Hflags. unfold filterRefs.
  rewrite (filterRefsFrom_ext p 0 orig (envelopes s) Hflags).
  assert (Hloop : envelopes
      (forEachRef (drop 1 (filterRefsFrom p 0 (envelopes s)))
         (λ r, mutate r clear) s) = keepFirst p clear (envelopes s)).
  { apply (clear_later_refs (envelopes s) [] s). done. }
  case_decide as Hlen; [done|].
  rewrite <- Hloop. rewrite drop_ge; [done|lia].
Qed.

Lemma countWhere_keepFirst_le l :
  (∀ x, p (clear x) = false) → (countWhere p (keepFirst p clear l) ≤ 1)%nat.
Proof.
  intros Hclear. induction l as [|e l IH]; simpl; [by apply le_S|].
  destruct (p e) eqn:Hp; rewrite countWhere_cons, Hp; [|simpl; lia].
  rewrite countWhere_none; [lia|].
  apply Forall_fmap, Forall_true. intros x. simpl.
  destruct (p x) eqn:Hx; [rewrite Hclear|]; congruence.
Qed.

Lemma keepFirst_fmap {B} (q : Envelope → B) l :
  (∀ x, q (clear x) = q x) → q <$> keepFirst p clear l = q <$> l.
Proof.
  intros Hq. induction l as [|e l IH]; simpl; [done|].
  destruct (p e); simpl; f_equal; [|done].
  rewrite <- list_fmap_compose. apply list_fmap_ext. intros _ x _. simpl.
  by destruct (p x).
Qed.

End demote.

Lemma countWhere_ext (p : Envelope → bool) (l1 l2 : list Envelope) :
  p <$> l1 = p <$> l2 → countWhere p l1 = countWhere p l2.
Proof.
  intros Heq. rewrite <- !(length_filterRefsFrom p 0).
  by rewrite (filterRefsFrom_ext p 0 l1 l2 Heq).
Qed.

(** ** Creating or settling the core envelope of one flag *)

Lemma settled_settle (e : Envelope) :
  settled (setIsActive true (setTargetCents 0 e)).
Proof. done. Qed.

Lemma settle_lookup r (envs : list Envelope) j :
  alter (setIsActive true) r (alter (setTargetCents 0) r envs) !! j
  = (if decide (r = j) then λ e, setIsActive true (setTargetCents 0 e) else id)
      <$> envs !! j.
Proof.
  destruct (decide (r = j)) as [->|Hne].
  - rewrite !list_lookup_alter_eq. by destruct (envs !! j).
  - rewrite !list_lookup_alter_ne by done. by destruct (envs !! j).
Qed.

Section ensure_one.
Context (p : Envelope → bool) (fresh : Envelope).
Hypothesis p_active : ∀ v e, p (setIsActive v e) = p e.
Hypothesis p_target : ∀ v e, p (setTargetCents v e) = p e.

Lemma countWhere_settle (q : Envelope → bool) r envs :
  (∀ v e, q (setIsActive v e) = q e) → (∀ v e, q (setTargetCents v e) = q e) →
  countWhere q (alter (setIsActive true) r (alter (setTargetCents 0) r envs))
  = countWhere q envs.
Proof. intros Ha Ht. rewrite !countWhere_alter; done. Qed.

Lemma ensureOne_count envs :
  p fresh = true → (countWhere p envs ≤ 1)%nat →
  countWhere p (ensureOne p fresh envs) = 1%nat.
Proof.
  intros Hfresh Hle. unfold ensureOne.
  destruct (findWhere p envs) as [[r e]|] eqn:Hfind.
  - rewrite countWhere_settle by done.
    apply findWhere_Some in Hfind as [Hr He].
    pose proof (countWhere_pos p envs r e Hr He). lia.
  - apply findWhere_None in Hfind.
    rewrite countWhere_app, countWhere_none by done.
    rewrite countWhere_cons, Hfresh. done.
Qed.

Lemma ensureOne_count_other (q : Envelope → bool) envs :
  (∀ v e, q (setIsActive v e) = q e) → (∀ v e, q (setTargetCents v e) = q e) →
  q fresh = false →
  countWhere q (ensureOne p fresh envs) = countWhere q envs.
Proof.
  intros Ha Ht Hfresh. unfold ensureOne.
  destruct (findWhere p envs) as [[r e]|].
  - by apply countWhere_settle.
  - rewrite countWhere_app, countWhere_cons, Hfresh. simpl.
    unfold countWhere at 2. simpl. lia.
Qed.

Lemma ensureOne_settled envs :
  settled fresh → (countWhere p envs ≤ 1)%nat →
  Forall (λ e, p e = true → settled e) (ensureOne p fresh envs).
Proof.
  intros Hfresh Hle. unfold ensureOne.
  destruct (findWhere p envs) as [[r e]|] eqn:Hfind.
  - apply findWhere_Some in Hfind as [Hr He].
    apply Forall_lookup. intros j x Hj Hx. rewrite settle_lookup in Hj.
    destruct (envs !! j) as [y|] eqn:Hy; simplify_eq/=.
    case_decide as Hrj; [apply settled_settle|].
    exfalso. apply Hrj. by apply (countWhere_unique p envs r j e y).
  - apply findWhere_None in Hfind. apply Forall_app. split.
    + eapply Forall_impl; [exact Hfind|]. naive_solver.
    + by apply Forall_singleton.
Qed.

Lemma ensureOne_keeps_settled (q : Envelope → bool) envs :
  (∀ v e, q (setIsActive v e) = q e) → (∀ v e, q (setTargetCents v e) = q e) →
  settled fresh →
  Forall (λ e, q e = true → settled e) envs →
  Forall (λ e, q e = true → settled e) (ensureOne p fresh envs).
Proof.
  intros Ha Ht Hfresh Hall. unfold ensureOne.
  destruct (findWhere p envs) as [[r e]|].
  - apply Forall_lookup. intros j x Hj Hx. rewrite settle_lookup in Hj.
    destruct (envs !! j) as [y|] eqn:Hy; simplify_eq/=.
    case_decide; [apply settled_settle|].
    by apply (proj1 (Forall_lookup _ _) Hall j y).
  - apply Forall_app. split; [done|]. by apply Forall_singleton.
Qed.
End ensure_one.

Lemma ensureCoreEnvelopes_envelopes (s : State) :
  envelopes (ensureCoreEnvelopes s)
  = ensureOne isOverflow
      (newEnvelope "env_overflow" "Overflow" 0 0 (coreFlags false true))
      (ensureOne isIncome
         (newEnvelope "env_income" "Income" 0 0 (coreFlags true false))
         (keepFirst isOverflow (setIsOverflow false)
            (keepFirst isIncome (setIsIncome false) (envelopes s)))).
Proof.
  unfold ensureCoreEnvelopes.
  set (s1 := if decide (1 < length (filterRefs isIncome (envelopes s)))%nat
             then _ else s).
  set (s2 := if decide (1 < length (filterRefs isOverflow (envelopes s)))%nat
             then _ else s1).
  assert (H1 : envelopes s1 = keepFirst isIncome (setIsIncome false) (envelopes s)).
  { by apply (demote_envelopes isIncome (setIsIncome false) (envelopes s) s). }
  assert (H2 : envelopes s2
    = keepFirst isOverflow (setIsOverflow false) (envelopes s1)).
  { apply (demote_envelopes isOverflow (setIsOverflow false) (envelopes s) s1).
    rewrite H1. symmetry. by apply keepFirst_fmap. }
  rewrite <- H1, <- H2. clearbody s2. clear.
  unfold ensureOne at 2.
  destruct (findWhere isIncome (envelopes s2)) as [[income ?]|]; simpl;
    unfold ensureOne;
    match goal with |- context [findWhere isOverflow ?l] =>
      destruct (findWhere isOverflow l) as [[overflow ?]|] end; done.
Qed.

Lemma ensureCoreEnvelopes_ledger (s : State) :
  transactions (ensureCoreEnvelopes s) = transactions s
  ∧ bankBalanceCents (ensureCoreEnvelopes s) = bankBalanceCents s
  ∧ settings (ensureCoreEnvelopes s) = settings s.
Proof.
  assert (Hloop : ∀ refs f s0,
    transactions (forEachRef refs (λ r, mutate r f) s0) = transactions s0
    ∧ bankBalanceCents (forEachRef refs (λ r, mutate r f) s0) = bankBalanceCents s0
    ∧ settings (forEachRef refs (λ r, mutate r f) s0) = settings s0).
  { induction refs as [|r refs IH]; intros f s0; [done|].
    rewrite forEachRef_cons. destruct (IH f (mutate r f s0)) as (-> & -> & ->).
    done. }
  unfold ensureCoreEnvelopes.
  set (s1 := if decide (1 < length (filterRefs isIncome (envelopes s)))%nat
             then _ else s).
  set (s2 := if decide (1 < length (filterRefs isOverflow (envelopes s)))%nat
             then _ else s1).
  assert (H1 : transactions s1 = transactions s
    ∧ bankBalanceCents s1 = bankBalanceCents s ∧ settings s1 = settings s).
  { subst s1. case_decide; [apply Hloop|done]. }
  assert (H2 : transactions s2 = transactions s
    ∧ bankBalanceCents s2 = bankBalanceCents s ∧ settings s2 = settings s).
  { subst s2. case_decide; [|done].
    destruct (Hloop (drop 1 (filterRefs isOverflow (envelopes s)))
      (setIsOverflow false) s1) as (-> & -> & ->). done. }
  clearbody s2. destruct H2 as (<- & <- & <-).
  destruct (findWhere isIncome (envelopes s2)) as [[income ?]|]; simpl;
    match goal with |- context [findWhere isOverflow ?l] =>
      destruct (findWhere isOverflow l) as [[overflow ?]|] end; done.
Qed.

(** [ensureCoreEnvelopes] establishes the core invariant from any state. *)
Lemma ensureCoreEnvelopes_establishes (s : State) :
  CoreInvariant (envelopes (ensureCoreEnvelopes s)).
Proof.
  rewrite ensureCoreEnvelopes_envelopes.
  set (E1 := keepFirst isIncome (setIsIncome false) (envelopes s)).
  set (E2 := keepFirst isOverflow (setIsOverflow false) E1).
  set (freshI := newEnvelope "env_income" "Income" 0 0 (coreFlags true false)).
  set (freshO := newEnvelope "env_overflow" "Overflow" 0 0 (coreFlags false true)).
  assert (HI2 : (countWhere isIncome E2 ≤ 1)%nat).
  { subst E2. rewrite (countWhere_ext isIncome _ E1)
      by (by apply keepFirst_fmap).
    by apply countWhere_keepFirst_le. }
  assert (HO2 : (countWhere isOverflow E2 ≤ 1)%nat)
    by (by apply countWhere_keepFirst_le).
  set (E3 := ensureOne isIncome freshI E2).
  assert (HI3 : countWhere isIncome E3 = 1%nat)
    by (by apply ensureOne_count).
  assert (HO3 : countWhere isOverflow E3 = countWhere isOverflow E2)
    by (by apply ensureOne_count_other).
  assert (HS3 : Forall (λ e, isIncome e = true → settled e) E3)
    by (by apply ensureOne_settled).
  split; [|split].
  - rewrite ensureOne_count_other; done.
  - apply ensureOne_count; [done..|lia].
  - assert (HSI : Forall (λ e, isIncome e = true → settled e)
        (ensureOne isOverflow freshO E3))
      by (by apply ensureOne_keeps_settled).
    assert (HSO : Forall (λ e, isOverflow e = true → settled e)
        (ensureOne isOverflow freshO E3))
      by (apply ensureOne_settled; [done..|lia]).
    apply Forall_forall. intros e He Hcore.
    unfold isCoreEnvelope in Hcore. apply orb_true_iff in Hcore as [Hc|Hc].
    + by apply (proj1 (Forall_forall _ _) HSI e He).
    + by apply (proj1 (Forall_forall _ _) HSO e He).
Qed.

Lemma mutate_id r f e s :
  envelopes s !! r = Some e → f e = e → mutate r f s = s.
Proof.
  intros Hr Hf. apply state_eq; try done. rewrite envelopes_mutate.
  apply list_eq. intros j. rewrite list_lookup_alter.
  case_decide; [subst; by rewrite Hr; simpl; rewrite Hf|done].
Qed.

(** A state that satisfies the core invariant is a fixed point. *)
Lemma ensureCoreEnvelopes_fixpoint (s : State) :
  CoreInvariant (envelopes s) → ensureCoreEnvelopes s = s.
Proof.
  intros (HI & HO & Hall). unfold ensureCoreEnvelopes, filterRefs.
  rewrite !length_filterRefsFrom, HI, HO. simpl.
  assert (Hsettle : ∀ (p : Envelope → bool),
    (∀ e, p e = true → isCoreEnvelope e = true) →
    countWhere p (envelopes s) = 1%nat →
    ∃ r e, findWhere p (envelopes s) = Some (r, e)
      ∧ mutate r (setIsActive true) (mutate r (setTargetCents 0) s) = s).
  { intros p Hp Hc.
    destruct (findWhere_is_Some p (envelopes s)) as [[r e] Hfind]; [lia|].
    exists r, e. split; [done|].
    apply findWhere_Some in Hfind as [Hr He].
    destruct (proj1 (Forall_lookup _ _) Hall r e Hr (Hp e He)) as [Hact Htgt].
    rewrite (mutate_id r (setTargetCents 0) e s Hr) by envelope_eq.
    apply (mutate_id r (setIsActive true) e s Hr). envelope_eq. }
  destruct (Hsettle isIncome) as (ri & ei & -> & ->); [|done|].
  { intros e He. unfold isCoreEnvelope. by rewrite He. }
  destruct (Hsettle isOverflow) as (ro & eo & -> & ->); [|done|done].
  intros e He. unfold isCoreEnvelope. rewrite He. by destruct (isIncome e).
Qed.

(** C9: [ensureCoreEnvelopes] is idempotent: from every starting state, a
    second run directly after the first changes nothing. *)
Theorem ensureCoreEnvelopes_idempotent (s : State) :
  ensureCoreEnvelopes (ensureCoreEnvelopes s) = ensureCoreEnvelopes s.
Proof.
  apply ensureCoreEnvelopes_fixpoint, ensureCoreEnvelopes_establishes.
Qed.

(** ** Preservation of the core invariant *)

Lemma coreAlike_refl e : coreAlike e e.
Proof. done. Qed.

Lemma coreAlike_trans e1 e2 e3 :
  coreAlike e1 e2 → coreAlike e2 e3 → coreAlike e1 e3.
Proof.
  unfold coreAlike, isCoreEnvelope.
  intros (Hid & Hi & Ho & Hs) (Hid' & Hi' & Ho' & Hs').
  rewrite Hid', Hi', Ho', Hid, Hi, Ho in *. naive_solver.
Qed.

Lemma coreStable_refl l : coreStable l l.
Proof. apply Forall_Forall2_diag, Forall_true, coreAlike_refl. Qed.

Lemma coreStable_trans l1 l2 l3 :
  coreStable l1 l2 → coreStable l2 l3 → coreStable l1 l3.
Proof.
  intros H12. revert l3.
  induction H12 as [|x y l k Hxy _ IH]; intros l3 H23.
  - inversion H23. constructor.
  - inversion H23 as [|y' z k' m Hyz Hkm]; subst.
    constructor; [by eapply coreAlike_trans|by apply IH].
Qed.

Lemma coreStable_alter f r l :
  (∀ e, l !! r = Some e → coreAlike e (f e)) → coreStable l (alter f r l).
Proof.
  intros Hf. apply Forall2_alter_r; [apply coreStable_refl|].
  intros x y Hx Hy _. simplify_eq. by apply Hf.
Qed.

Lemma coreStable_invariant l l' :
  coreStable l l' → CoreInvariant l → CoreInvariant l'.
Proof.
  intros Hst.
  assert (isIncome <$> l = isIncome <$> l' ∧ isOverflow <$> l = isOverflow <$> l')
    as [HfI HfO].
  { induction Hst as [|e e' l l' (_ & Hi & Ho & _) _ [IHi IHo]]; [done|].
    rewrite !fmap_cons, Hi, Ho, IHi, IHo. done. }
  intros (HI & HO & Hall). split; [|split].
  - by rewrite <- (countWhere_ext isIncome l l').
  - by rewrite <- (countWhere_ext isOverflow l l').
  - clear HI HO HfI HfO.
    induction Hst as [|e e' l l' (_ & Hi & Ho & Hs) _ IH]; [done|].
    apply Forall_cons in Hall as [He Hall]. constructor; [|by apply IH].
    unfold isCoreEnvelope in *. rewrite Hi, Ho. auto.
Qed.

Lemma coreStable_ids l l' : coreStable l l' → envId <$> l = envId <$> l'.
Proof.
  induction 1 as [|e e' l l' (Hid & _) _ IH]; [done|].
  by rewrite !fmap_cons, Hid, IH.
Qed.

Lemma apply_coreStable tx d s :
  coreStable (envelopes s) (envelopes (applyTransactionToBalances tx d s)).
Proof.
  apply Forall2_lookup. intros r. rewrite apply_lookup.
  destruct (envelopes s !! r); constructor. done.
Qed.

Lemma addTransaction_coreStable freshId now from to d nt log s :
  coreStable (envelopes s)
    (envelopes (addTransaction freshId now from to d nt log s)).
Proof.
  unfold addTransaction. case_decide; [apply coreStable_refl|].
  destruct log; simpl; apply apply_coreStable.
Qed.

Lemma updateTransaction_coreStable i updates s :
  coreStable (envelopes s) (envelopes (updateTransaction i updates s)).
Proof.
  unfold updateTransaction.
  destruct (findTransaction i (transactions s)) as [[index oldTx]|];
    [simpl|apply coreStable_refl].
  eapply coreStable_trans; apply apply_coreStable.
Qed.

Lemma reactivate_coreStable o s :
  coreStable (envelopes s) (envelopes (reactivate o s)).
Proof.
  unfold reactivate. destruct (orNull o) as [eid|]; [|apply coreStable_refl].
  destruct (findById eid (envelopes s)) as [[env e]|]; [|apply coreStable_refl].
  destruct (negb (isActive e)); [|apply coreStable_refl].
  apply coreStable_alter. intros x _. unfold coreAlike, settled. naive_solver.
Qed.

Lemma deleteTransaction_coreStable i s :
  coreStable (envelopes s) (envelopes (deleteTransaction i s)).
Proof.
  unfold deleteTransaction.
  destruct (findTransaction i (transactions s)) as [[index tx]|];
    [simpl|apply coreStable_refl].
  eapply coreStable_trans; [|apply apply_coreStable].
  eapply coreStable_trans; apply reactivate_coreStable.
Qed.

Lemma forEachRef_coreStable {A} (refs : list A) (body : A → State → State) s :
  (∀ r acc, coreStable (envelopes acc) (envelopes (body r acc))) →
  coreStable (envelopes s) (envelopes (forEachRef refs body s)).
Proof.
  intros Hbody. revert s. induction refs as [|r refs IH]; intros s.
  - apply coreStable_refl.
  - rewrite forEachRef_cons. eapply coreStable_trans; [apply Hbody|apply IH].
Qed.

Lemma autoAllocate_coreStable ok freshId now s :
  coreStable (envelopes s) (envelopes (autoAllocate ok freshId now s)).
Proof.
  unfold autoAllocate.
  destruct (getIncomeEnvelope s) as [[income ?]|]; [|apply coreStable_refl].
  case_decide; [apply coreStable_refl|].
  destruct (negb ok); [apply coreStable_refl|].
  apply forEachRef_coreStable. intros r acc.
  destruct (envelopes acc !! r), (envelopes acc !! income);
    try apply coreStable_refl.
  apply addTransaction_coreStable.
Qed.

Lemma findById_Some i envs r e :
  findById i envs = Some (r, e) → envs !! r = Some e ∧ envId e = i.
Proof. unfold findById. rewrite list_find_Some. naive_solver. Qed.

Lemma deleteEnvelope_coreStable i ok freshId now s :
  coreStable (envelopes s) (envelopes (deleteEnvelope i ok freshId now s)).
Proof.
  unfold deleteEnvelope.
  destruct (findById i (envelopes s)) as [[env e]|] eqn:Hfind;
    [|apply coreStable_refl].
  apply findById_Some in Hfind as [Henv _].
  destruct (isCoreEnvelope e) eqn:Hcore; [apply coreStable_refl|].
  destruct (getIncomeEnvelope s) as [[ri income]|]; [|apply coreStable_refl].
  assert (Hoff : ∀ s1, coreStable (envelopes s) (envelopes s1) →
    coreStable (envelopes s) (envelopes (mutate env (setIsActive false) s1))).
  { intros s1 H1. eapply coreStable_trans; [exact H1|].
    apply coreStable_alter. intros x Hx.
    destruct (Forall2_lookup_lr _ _ _ _ _ _ H1 Henv Hx) as (_ & Hi & Ho & _).
    split; [done|]. split; [done|]. split; [done|]. unfold isCoreEnvelope in *.
    rewrite Hi, Ho, Hcore. done. }
  case_decide.
  - destruct (negb ok); [apply coreStable_refl|].
    apply Hoff, addTransaction_coreStable.
  - apply Hoff, coreStable_refl.
Qed.

Lemma updateEnvelope_coreStable i updates s :
  keepsCoreFlags s (OpUpdateEnvelope i updates) →
  coreStable (envelopes s) (envelopes (updateEnvelope i updates s)).
Proof.
  simpl. intros Hkeep. unfold updateEnvelope.
  destruct (findById i (envelopes s)) as [[env e]|] eqn:Hfind;
    [|apply coreStable_refl].
  destruct (Hkeep env e eq_refl) as [HkI HkO].
  apply findById_Some in Hfind as [Henv _].
  destruct updates as [uName uTarget uIncome uOverflow uCard uActive].
  simpl in *.
  destruct (isCoreEnvelope e) eqn:Hcore;
    destruct uName, uTarget, uIncome, uOverflow, uCard, uActive; simpl in *;
    rewrite ?envelopes_mutate, ?list_alter_alter_eq;
    try apply coreStable_refl;
    (apply coreStable_alter; intros x Hx;
     assert (x = e) as -> by congruence; clear Hx Henv Hkeep;
     unfold coreAlike, isCoreEnvelope, settled in *; destruct e; simpl in *;
     rewrite ?Hcore; naive_solver).
Qed.

Lemma addEnvelope_invariant freshId nm d flags s :
  keepsCoreFlags s (OpAddEnvelope freshId nm d flags) →
  CoreInvariant (envelopes s) →
  CoreInvariant (envelopes (addEnvelope freshId nm d flags s)).
Proof.
  simpl. intros [HfI HfO] (HI & HO & Hall). unfold addEnvelope.
  case_decide; [done|]. simpl. split; [|split].
  - rewrite countWhere_app, countWhere_cons. simpl. rewrite HfI, HI. done.
  - rewrite countWhere_app, countWhere_cons. simpl. rewrite HfO, HO. done.
  - apply Forall_app. split; [done|]. apply Forall_singleton.
    unfold isCoreEnvelope. simpl. by rewrite HfI, HfO.
Qed.

Lemma countWhere_filter_keep (p keep : Envelope → bool) l :
  (∀ e, p e = true → keep e = true) →
  countWhere p (filter (λ e, keep e = true) l) = countWhere p l.
Proof.
  intros Hk. induction l as [|e l IH]; [done|].
  rewrite filter_cons. case_decide as Hkeep.
  - by rewrite !countWhere_cons, IH.
  - rewrite countWhere_cons, IH. destruct (p e) eqn:Hp; [|done].
    by rewrite (Hk e Hp) in Hkeep.
Qed.

Lemma cleanupUnusedEnvelopes_invariant s :
  CoreInvariant (envelopes s) →
  CoreInvariant (envelopes (cleanupUnusedEnvelopes s)).
Proof.
  intros (HI & HO & Hall). unfold cleanupUnusedEnvelopes. simpl.
  assert (Hcore : ∀ p : Envelope → bool,
    (∀ e, p e = true → isCoreEnvelope e = true) →
    ∀ e, p e = true → keepEnvelope (usedIds (transactions s)) e = true).
  { intros p Hp e He. unfold keepEnvelope. by rewrite (Hp e He). }
  split; [|split].
  - rewrite countWhere_filter_keep; [done|]. apply Hcore.
    intros e He. unfold isCoreEnvelope. by rewrite He.
  - rewrite countWhere_filter_keep; [done|]. apply Hcore.
    intros e He. unfold isCoreEnvelope. rewrite He. by destruct (isIncome e).
  - apply Forall_forall. intros e [_ He]%list_elem_of_filter.
    by apply (proj1 (Forall_forall _ _) Hall e He).
Qed.

(** C2, amended: once the core invariant holds (as it does after
    [ensureCoreEnvelopes]), every public operation preserves it, provided
    [addEnvelope] is not given the [isIncome] or [isOverflow] flag and the
    patch of [updateEnvelope] does not change the [isIncome] or
    [isOverflow] flag of the envelope it updates. *)
Theorem core_invariant_preserved (clock : Z → string) (s : State) (op : Op) :
  CoreInvariant (envelopes s) →
  keepsCoreFlags s op →
  CoreInvariant (envelopes (step clock op s)).
Proof.
  intros Hinv Hkeep. destruct op; simpl.
  - by apply addEnvelope_invariant.
  - eapply coreStable_invariant; [by apply updateEnvelope_coreStable|done].
  - eapply coreStable_invariant; [apply deleteEnvelope_coreStable|done].
  - eapply coreStable_invariant; [apply addTransaction_coreStable|done].
  - eapply coreStable_invariant; [apply updateTransaction_coreStable|done].
  - eapply coreStable_invariant; [apply deleteTransaction_coreStable|done].
  - eapply coreStable_invariant; [apply autoAllocate_coreStable|done].
  - done.
  - by apply cleanupUnusedEnvelopes_invariant.
Qed.

(** C2 as stated fails: [updateEnvelope] on the Income envelope with the
    patch [{isIncome: false}] leaves no Income envelope. *)
Lemma updateEnvelope_can_drop_income :
  CoreInvariant (envelopes initialState)
  ∧ ¬ CoreInvariant
        (envelopes
           (step sampleClock
              (OpUpdateEnvelope "env_income"
                 (mkEnvelopeUpdates None None (Some false) None None None))
              initialState)).
Proof.
  split; [apply ensureCoreEnvelopes_establishes|].
  intros (HI & _). vm_compute in HI. discriminate.
Qed.

(** ** Money codec *)

Lemma dollarsToCents_centsAsDollars (c : Z) :
  dollarsToCents (centsAsDollars c) = c.
Proof.
  unfold dollarsToCents, centsAsDollars.
  assert (Heq : (inject_Z c / inject_Z 100 * inject_Z 100 + (1 # 2)
                 == inject_Z c + (1 # 2))%Q) by (field; discriminate).
  rewrite Heq. unfold Qfloor, Qplus, inject_Z. simpl.
  symmetry. apply (Z.div_unique _ _ c 1); lia.
Qed.

(** ** The ledger under the operations *)

Lemma transactions_addTransaction freshId now from to d nt log s :
  transactions (addTransaction freshId now from to d nt log s)
  = if decide (dollarsToCents d = 0) then transactions s
    else if log
      then transactions s
           ++ [newTransaction freshId now (orNull from) (orNull to)
                 (dollarsToCents d) nt]
      else transactions s.
Proof.
  unfold addTransaction. case_decide; [done|].
  destruct log; simpl; by rewrite transactions_apply.
Qed.

Lemma forEachRef_transactions {A} (refs : list A) (body : A → State → State) s :
  (∀ r acc, transactions (body r acc) = transactions acc) →
  transactions (forEachRef refs body s) = transactions s.
Proof.
  intros Hbody. revert s. induction refs as [|r refs IH]; intros s; [done|].
  by rewrite forEachRef_cons, IH, Hbody.
Qed.

Lemma transactions_autoAllocate ok freshId now s :
  transactions (autoAllocate ok freshId now s) = transactions s.
Proof.
  unfold autoAllocate. destruct (getIncomeEnvelope s) as [[income ?]|]; [|done].
  case_decide; [done|]. destruct (negb ok); [done|].
  apply forEachRef_transactions. intros r acc.
  destruct (envelopes acc !! r), (envelopes acc !! income); try done.
  rewrite transactions_addTransaction. by case_decide.
Qed.

Lemma transactions_deleteEnvelope i ok freshId now s :
  transactions (deleteEnvelope i ok freshId now s) = transactions s
  ∨ ∃ r e from to,
      findById i (envelopes s) = Some (r, e)
      ∧ transactions (deleteEnvelope i ok freshId now s)
        = transactions s
          ++ [newTransaction freshId now from to (balanceCents e) (mergeNote e)]
      ∧ balanceCents e ≠ 0.
Proof.
  unfold deleteEnvelope.
  destruct (findById i (envelopes s)) as [[env e]|] eqn:Hfind; [|by left].
  destruct (isCoreEnvelope e); [by left|].
  destruct (getIncomeEnvelope s) as [[ri income]|]; [|by left].
  case_decide as Hbal; [|by left]. destruct ok; simpl; [|by left].
  right. exists env, e. eexists _, _. split; [done|].
  rewrite transactions_addTransaction, dollarsToCents_centsAsDollars.
  case_decide; [done|]. done.
Qed.

Lemma transactions_updateEnvelope i updates s :
  transactions (updateEnvelope i updates s) = transactions s.
Proof.
  unfold updateEnvelope. destruct (findById i (envelopes s)) as [[env e]|]; [|done].
  destruct updates as [[] [] [] [] [] []], (isCoreEnvelope e); done.
Qed.

(** C3, amended: [addTransaction] aborts without storing when the
    converted amount is zero; and when every stored amount is positive,
    it stays so under every operation as long as [addTransaction] is not
    given an amount that converts to a negative number, a patch of
    [updateTransaction] leaves the amount alone or gives one that converts
    to a positive number, and [deleteEnvelope] merges no negative balance
    (its auto-merge stores the signed balance as the amount). *)
Theorem stored_amounts_positive :
  (∀ freshId now from to d nt log s,
     dollarsToCents d = 0 → addTransaction freshId now from to d nt log s = s)
  ∧ (∀ clock s op,
       AllPositive (transactions s) → amountsStayPositive s op →
       AllPositive (transactions (step clock op s))).
Proof.
  split.
  { intros freshId now from to d nt log s Hz. unfold addTransaction.
    by case_decide. }
  intros clock s op Hpos Hok. unfold AllPositive in *. destruct op; simpl in *.
  - unfold addEnvelope. by case_decide.
  - by rewrite transactions_updateEnvelope.
  - destruct (transactions_deleteEnvelope i ok freshId now s)
      as [->|(r & e & from & to & Hfind & -> & Hne)]; [done|].
    apply Forall_app. split; [done|]. apply Forall_singleton.
    specialize (Hok r e Hfind). simpl. lia.
  - rewrite transactions_addTransaction. case_decide; [done|].
    destruct log; [|done]. apply Forall_app. split; [done|].
    apply Forall_singleton. simpl. lia.
  - unfold updateTransaction.
    destruct (findTransaction i (transactions s)) as [[index oldTx]|] eqn:Hfind;
      [simpl|done].
    rewrite !transactions_apply. apply Forall_insert; [done|]. simpl.
    destruct (updAmountDollars updates); [done|].
    apply list_find_Some in Hfind as (Hidx & _).
    by apply (proj1 (Forall_lookup _ _) Hpos index oldTx).
  - unfold deleteTransaction.
    destruct (findTransaction i (transactions s)) as [[index tx]|]; [simpl|done].
    rewrite transactions_apply. simpl.
    assert (Hre : ∀ o s0, transactions (reactivate o s0) = transactions s0).
    { intros o s0. unfold reactivate. repeat case_match; done. }
    rewrite !Hre. by apply Forall_delete.
  - by rewrite transactions_autoAllocate.
  - apply Forall_forall. intros tx [_ Hin]%list_elem_of_filter.
    by apply (proj1 (Forall_forall _ _) Hpos tx).
  - done.
Qed.

(** [updateTransaction] stores whatever the patch converts to: an edit
    to a tenth of a cent, which [addTransaction] would refuse, leaves a
    transaction of zero cents in the ledger. *)
Example updateTransaction_stores_zero :
  amountCents
  <$> transactions
        (updateTransaction "tx_1"
           (mkTransactionUpdates None None (Some (1 # 1000)) None)
           overspentState)
  = [0].
Proof. by vm_compute. Qed.

(** X24: every operation keeps the stored transactions in the form the
    [Transaction] constructor gives them: a stored envelope id is [null]
    or a non-empty string. *)
Lemma constructed_preserved (clock : Z → string) (s : State) (op : Op) :
  Forall constructed (transactions s) →
  Forall constructed (transactions (step clock op s)).
Proof.
  intros Hwf. destruct op; simpl.
  - unfold addEnvelope. by case_decide.
  - by rewrite transactions_updateEnvelope.
  - destruct (transactions_deleteEnvelope i ok freshId now s)
      as [->|(r & e & from & to & Hfind & -> & Hne)]; [done|].
    apply Forall_app. split; [done|]. apply Forall_singleton.
    apply newTransaction_constructed.
  - rewrite transactions_addTransaction. case_decide; [done|].
    destruct log; [|done]. apply Forall_app. split; [done|].
    apply Forall_singleton, newTransaction_constructed.
  - unfold updateTransaction.
    destruct (findTransaction i (transactions s)) as [[index oldTx]|];
      [simpl|done].
    rewrite !transactions_apply.
    apply Forall_insert; [done|apply newTransaction_constructed].
  - unfold deleteTransaction.
    destruct (findTransaction i (transactions s)) as [[index tx]|]; [simpl|done].
    rewrite transactions_apply. simpl.
    assert (Hre : ∀ o s0, transactions (reactivate o s0) = transactions s0).
    { intros o s0. unfold reactivate. repeat case_match; done. }
    rewrite !Hre. by apply Forall_delete.
  - by rewrite transactions_autoAllocate.
  - apply Forall_forall. intros tx [_ Hin]%list_elem_of_filter.
    by apply (proj1 (Forall_forall _ _) Hwf tx).
  - done.
Qed.

(** C3 as stated fails: deleting an overspent envelope stores an
    auto-merge transaction with a negative amount. *)
Lemma deleteEnvelope_stores_negative_amount :
  AllPositive (transactions overspentState)
  ∧ ¬ AllPositive
        (transactions
           (step sampleClock
              (OpDeleteEnvelope "env_g" true "tx_2" "2026-10-20T09:00:00.000Z")
              overspentState)).
Proof.
  split.
  - apply Forall_singleton. by vm_compute.
  - intros Hpos. unfold AllPositive in Hpos. vm_compute in Hpos.
    inversion Hpos as [|? ? _ Hrest]. inversion Hrest as [|? ? Hneg _].
    discriminate Hneg.
Qed.

(** ** Envelope deletion with merge *)

Lemma resolve_Some_id i envs r e :
  i ≠ ""%string → findById i envs = Some (r, e) → resolve (Some i) envs = Some r.
Proof.
  intros Hi Hfind. unfold resolve. simpl. case_decide; [done|]. by rewrite Hfind.
Qed.




(** ** Deleting a transaction *)






(** ** References selected by a filter *)

Section refs.
Context (p : Envelope → bool).

Lemma elem_of_filterRefsFrom l : ∀ i r,
  r ∈ filterRefsFrom p i l
  ↔ ∃ e, (i ≤ r)%nat ∧ l !! (r - i)%nat = Some e ∧ p e = true.
Proof.
  induction l as [|a l IH]; intros i r; simpl.
  - split; [by intros ?%elem_of_nil|]. by intros (e & _ & ? & _).
  - assert (Hrest : r ∈ filterRefsFrom p (S i) l
        ↔ ∃ e, (i < r)%nat ∧ (a :: l) !! (r - i)%nat = Some e ∧ p e = true).
    { rewrite IH. split; intros (e & Hle & Hl & He); exists e;
        (split; [lia|]); (split; [|done]).
      - replace (r - i)%nat with (S (r - S i)) by lia. done.
      - replace (r - i)%nat with (S (r - S i)) in Hl by lia. done. }
    destruct (p a) eqn:Ha.
    + rewrite elem_of_cons, Hrest. split.
      * intros [->|(e & Hlt & Hl & He)].
        -- exists a. rewrite Nat.sub_diag. done.
        -- exists e. split; [lia|done].
      * intros (e & Hle & Hl & He).
        destruct (decide (r = i)) as [->|Hne]; [by left|].
        right. exists e. split; [lia|done].
    + rewrite Hrest. split; intros (e & Hle & Hl & He); exists e.
      * split; [lia|done].
      * split; [|done]. destruct (decide (r = i)) as [->|Hne]; [|lia].
        rewrite Nat.sub_diag in Hl. simplify_eq/=. congruence.
Qed.

Lemma elem_of_filterRefs l r :
  r ∈ filterRefs p l ↔ ∃ e, l !! r = Some e ∧ p e = true.
Proof.
  unfold filterRefs. rewrite elem_of_filterRefsFrom, Nat.sub_0_r.
  split; intros (e & H); exists e; [tauto|]. split; [lia|tauto].
Qed.



End refs.

Lemma sumBy_foldr (f : Envelope → Z) (l : list Envelope) :
  sumBy f l = foldr (λ e a, f e + a) 0 l.
Proof.
  unfold sumBy.
  enough (∀ acc, foldl (λ sum e, sum + f e) acc l
                 = acc + foldr (λ e a, f e + a) 0 l) as -> by lia.
  induction l as [|e l IH]; intros acc; simpl; [lia|]. rewrite IH. lia.
Qed.




(** ** Auto-allocation *)

Lemma wellFormedIds_ext (l1 l2 : list Envelope) :
  envId <$> l1 = envId <$> l2 → wellFormedIds l1 → wellFormedIds l2.
Proof. unfold wellFormedIds. by intros ->. Qed.

Lemma wellFormedIds_nonempty envs r e :
  wellFormedIds envs → envs !! r = Some e → envId e ≠ ""%string.
Proof.
  intros [_ Hne] Hr Hemp. apply Hne. rewrite <- Hemp.
  apply list_elem_of_fmap. exists e. split; [done|].
  by apply list_elem_of_lookup_2 with r.
Qed.

Lemma resolve_wellFormed envs r e :
  wellFormedIds envs → envs !! r = Some e →
  resolve (Some (envId e)) envs = Some r.
Proof.
  intros Hwf Hr. pose proof (wellFormedIds_nonempty envs r e Hwf Hr) as Hne.
  destruct Hwf as [Hnd _].
  destruct (findById (envId e) envs) as [[r' e']|] eqn:Hfind.
  - rewrite (resolve_Some_id _ _ _ _ Hne Hfind). f_equal.
    apply findById_Some in Hfind as [Hr' Hid].
    apply (NoDup_lookup _ r' r (envId e) Hnd); rewrite list_lookup_fmap.
    + by rewrite Hr', <- Hid.
    + by rewrite Hr.
  - apply list_find_None in Hfind.
    by pose proof (proj1 (Forall_lookup _ _) Hfind r e Hr).
Qed.

Lemma orNull_Some_ne i : i ≠ ""%string → orNull (Some i) = Some i.
Proof. intros Hi. simpl. by case_decide. Qed.

Lemma addTransaction_unlogged freshId now from to d nt s :
  dollarsToCents d ≠ 0 →
  addTransaction freshId now from to d nt false s
  = applyTransactionToBalances
      (newTransaction freshId now (orNull from) (orNull to) (dollarsToCents d) nt)
      1 s.
Proof. intros Hd. unfold addTransaction. by case_decide. Qed.





(** The state a fresh installation starts from has identifying ids. *)
Lemma wellFormedIds_initialState : wellFormedIds (envelopes initialState).
Proof. split; apply (bool_decide_unpack _); by vm_compute. Qed.


(** * The scenarios of the specification *)

(** Scenario 1: income of 100.00 arrives in Income and is recorded. *)
Example scenario_add_income :
  addTransaction "tx_1" "2026-10-01T08:00:00.000Z" None (Some "env_income")
    (100 # 1) "Income" true initialState
  = mkState
      [mkEnvelope "env_income" "Income" 0 10000 true false false true;
       mkEnvelope "env_overflow" "Overflow" 0 0 false true false true]
      [mkTransaction "tx_1" "2026-10-01T08:00:00.000Z" None (Some "env_income")
         10000 "Income"]
      0 (mkSettings (Some 30)).
Proof. by vm_compute. Qed.

(** Scenario 2: auto-allocation funds Groceries and records nothing. *)
Example scenario_auto_allocate :
  envelopes fundedState
  = [fundedIncome;
     mkEnvelope "env_overflow" "Overflow" 0 0 false true false true;
     fundedGroceries]
  ∧ transactions fundedState = transactions unallocatedState.
Proof. by vm_compute. Qed.

(** Scenario 3: deleting Groceries merges its balance into Income. *)
Example scenario_delete_envelope :
  envelopes mergedState
  = [mkEnvelope "env_income" "Income" 0 10000 true false false true;
     mkEnvelope "env_overflow" "Overflow" 0 0 false true false true;
     mkEnvelope "env_g" "Groceries" 5000 0 false false false false]
  ∧ transactions mergedState !! 1%nat = Some mergeTransaction.
Proof. by vm_compute. Qed.

(** Scenario 4: deleting the merge transaction brings Groceries back. *)
Example scenario_delete_merge_transaction :
  deleteTransaction "tx_2" mergedState = fundedState.
Proof. by vm_compute. Qed.

(** Scenario 5: with a retention of 30 days a transaction from early
    September is pruned on 2 November, and no envelope changes. *)
Example scenario_prune :
  pruneOldTransactions sampleClock
    (setTransactions
       [newTransaction "tx_0" "2026-09-01T08:00:00.000Z" None (Some "env_income")
          2500 "Refund"]
       mergedState)
  = setTransactions [] mergedState.
Proof. by vm_compute. Qed.

(** The garbage collector purges the deleted Groceries envelope once no
    transaction refers to it, and keeps it while the merge does. *)
Example scenario_cleanup :
  envelopes (cleanupUnusedEnvelopes mergedState) = envelopes mergedState
  ∧ envelopes (cleanupUnusedEnvelopes (setTransactions [] mergedState))
    = [mkEnvelope "env_income" "Income" 0 10000 true false false true;
       mkEnvelope "env_overflow" "Overflow" 0 0 false true false true].
Proof. by vm_compute. Qed.

(** * The theorems at work on the sample states *)

Ltac forall_by_computation :=
  vm_compute; repeat (apply List.Forall_cons; [done|]); apply List.Forall_nil.

Lemma core_invariant_preserved_on_delete :
  CoreInvariant (envelopes fundedState)
  ∧ CoreInvariant
      (envelopes
         (step sampleClock
            (OpDeleteEnvelope "env_g" true "tx_2" "2026-10-20T09:00:00.000Z")
            fundedState)).
Proof.
  assert (Hinv : CoreInvariant (envelopes fundedState)).
  { split; [by vm_compute|]. split; [by vm_compute|]. forall_by_computation. }
  split; [exact Hinv|].
  apply (core_invariant_preserved sampleClock fundedState
           (OpDeleteEnvelope "env_g" true "tx_2" "2026-10-20T09:00:00.000Z")).
  - exact Hinv.
  - exact I.
Defined.

Lemma stored_amounts_positive_on_update :
  addTransaction "tx_3" "2026-10-21T09:00:00.000Z" None (Some "env_income")
    (1 # 1000) "Dust" true overspentState = overspentState
  ∧ AllPositive
      (transactions
         (step sampleClock
            (OpUpdateTransaction "tx_1"
               (mkTransactionUpdates None None (Some (7 # 1)) None))
            overspentState)).
Proof.
  split.
  - apply (proj1 stored_amounts_positive). by vm_compute.
  - apply (proj2 stored_amounts_positive sampleClock overspentState).
    + unfold AllPositive. forall_by_computation.
    + simpl. by vm_compute.
Defined.




Lemma cleanupUnusedEnvelopes_spec_on_merged :
  Forall constructed (transactions mergedState)
  ∧ envelopes (cleanupUnusedEnvelopes mergedState)
    = filter (λ e, ¬ purgeable (transactions mergedState) e) (envelopes mergedState).
Proof.
  assert (Hwf : Forall constructed (transactions mergedState)).
  { forall_by_computation. }
  split; [exact Hwf|].
  exact (proj1 (cleanupUnusedEnvelopes_spec mergedState Hwf)).
Defined.

(** * Further properties of the program *)

(** ** Totals *)

Lemma sumBy_cons (f : Envelope → Z) e l : sumBy f (e :: l) = f e + sumBy f l.
Proof. by rewrite !sumBy_foldr. Qed.

Lemma sumBy_app (f : Envelope → Z) l1 l2 :
  sumBy f (l1 ++ l2) = sumBy f l1 + sumBy f l2.
Proof.
  induction l1 as [|e l1 IH]; simpl; [unfold sumBy at 2; simpl; lia|].
  rewrite !sumBy_cons, IH. lia.
Qed.

Lemma sumBy_filter_cons (p : Envelope → bool) e l :
  sumBy balanceCents (filter (λ x, p x = true) (e :: l))
  = (if p e then balanceCents e else 0)
    + sumBy balanceCents (filter (λ x, p x = true) l).
Proof.
  rewrite filter_cons. destruct (p e); case_decide; try done.
  by rewrite sumBy_cons.
Qed.

(** X1: the total over the active envelopes is the total over the active
    non-card envelopes plus the total over the active cards. *)
Theorem totals_partition (s : State) :
  getTotalEnvelopesBalanceCents s
  = getTotalNonCardEnvelopesBalanceCents s + getTotalCreditCardBalanceCents s.
Proof.
  unfold getTotalEnvelopesBalanceCents, getTotalNonCardEnvelopesBalanceCents,
    getTotalCreditCardBalanceCents.
  induction (envelopes s) as [|e l IH]; [done|].
  rewrite (sumBy_filter_cons isActive),
    (sumBy_filter_cons (λ e, isActive e && negb (isCreditCard e))),
    (sumBy_filter_cons (λ e, isActive e && isCreditCard e)), IH.
  destruct (isActive e), (isCreditCard e); simpl; lia.
Qed.

Lemma sumBy_filter_alter (p : Envelope → bool) (g : Envelope → Envelope) r l :
  (∀ e, p (g e) = p e) →
  sumBy balanceCents (filter (λ x, p x = true) (alter g r l))
  = sumBy balanceCents (filter (λ x, p x = true) l)
    + from_option (λ e, if p e then balanceCents (g e) - balanceCents e else 0)
        0 (l !! r).
Proof.
  intros Hp. revert r. induction l as [|e l IH]; intros [|r]; simpl;
    try (unfold sumBy; simpl; lia).
  - change (list_alter g 0%nat (e :: l)) with (g e :: l).
    rewrite !sumBy_filter_cons, Hp. destruct (p e); lia.
  - change (e :: list_alter g r l) with (e :: alter g r l).
    rewrite !sumBy_filter_cons, IH. lia.
Qed.

Lemma apply_envelopes tx d s :
  envelopes (applyTransactionToBalances tx d s)
  = alterAt (resolve (toEnvelopeId tx) (envelopes s))
      (λ e, setBalanceCents (balanceCents e + d * amountCents tx) e)
      (alterAt (resolve (fromEnvelopeId tx) (envelopes s))
         (λ e, setBalanceCents (balanceCents e - d * amountCents tx) e)
         (envelopes s)).
Proof.
  apply list_eq. intros r. rewrite apply_lookup. unfold balanceDelta.
  destruct (resolve (fromEnvelopeId tx) (envelopes s)) as [rf|],
    (resolve (toEnvelopeId tx) (envelopes s)) as [rt|]; simpl;
    rewrite ?list_lookup_alter; repeat case_decide; simplify_eq;
    destruct (envelopes s !! r) as [e|]; simpl; try done; f_equal;
    envelope_eq.
Qed.

Lemma resolve_orNull o envs : resolve (orNull o) envs = resolve o envs.
Proof. unfold resolve. by rewrite orNull_idemp. Qed.

Lemma apply_total tx d s :
  getTotalEnvelopesBalanceCents (applyTransactionToBalances tx d s)
  = getTotalEnvelopesBalanceCents s
    + d * amountCents tx
      * ((if resolvesToActive (toEnvelopeId tx) (envelopes s) then 1 else 0)
         - (if resolvesToActive (fromEnvelopeId tx) (envelopes s) then 1 else 0)).
Proof.
  unfold getTotalEnvelopesBalanceCents, resolvesToActive.
  rewrite apply_envelopes.
  destruct (resolve (fromEnvelopeId tx) (envelopes s)) as [rf|],
    (resolve (toEnvelopeId tx) (envelopes s)) as [rt|]; simpl;
    rewrite ?(sumBy_filter_alter isActive) by done;
    rewrite ?list_lookup_alter; repeat case_decide; simplify_eq;
    repeat match goal with
    | |- context [envelopes s !! ?r] => destruct (envelopes s !! r) as [?e|]
    end; simpl;
    repeat match goal with
    | |- context [isActive ?e] => destruct (isActive e)
    end; simpl; lia.
Qed.

Lemma total_addTransaction (freshId now : string) (from to : option string)
    (amountDollars : Q) (nt : string) (log : bool) (s : State) :
  getTotalEnvelopesBalanceCents
    (addTransaction freshId now from to amountDollars nt log s)
  = getTotalEnvelopesBalanceCents s
    + dollarsToCents amountDollars
      * ((if resolvesToActive to (envelopes s) then 1 else 0)
         - (if resolvesToActive from (envelopes s) then 1 else 0)).
Proof.
  unfold addTransaction. case_decide as Hz; [rewrite Hz; lia|].
  assert (Happly : ∀ tx,
    getTotalEnvelopesBalanceCents
      (if log
       then setTransactions
              (transactions (applyTransactionToBalances tx 1 s) ++ [tx])
              (applyTransactionToBalances tx 1 s)
       else applyTransactionToBalances tx 1 s)
    = getTotalEnvelopesBalanceCents (applyTransactionToBalances tx 1 s))
    by (intros tx; by destruct log).
  rewrite Happly, apply_total. unfold resolvesToActive, newTransaction. simpl.
  rewrite !resolve_orNull. lia.
Qed.

(** X2: [addTransaction] changes the total over the active envelopes by
    the converted amount when only the destination resolves to an active
    envelope, by minus the amount when only the source does, and not at
    all when both or neither do: a transfer between two active envelopes
    moves money without creating or losing any. *)
Theorem addTransaction_total (freshId now : string) (from to : option string)
    (amountDollars : Q) (nt : string) (log : bool) (s : State) :
  getTotalEnvelopesBalanceCents
    (addTransaction freshId now from to amountDollars nt log s)
  = getTotalEnvelopesBalanceCents s
    + dollarsToCents amountDollars
      * ((if resolvesToActive to (envelopes s) then 1 else 0)
         - (if resolvesToActive from (envelopes s) then 1 else 0)).
Proof. apply total_addTransaction. Qed.

(** ** Undoing *)


Lemma constructed_rebuild tx :
  constructed tx →
  newTransaction (txId tx) (timestamp tx) (fromEnvelopeId tx) (toEnvelopeId tx)
    (amountCents tx) (note tx) = tx.
Proof.
  intros [Hf Ht]. unfold newTransaction. rewrite Hf, Ht. by destruct tx.
Qed.



Lemma ledger_updateTransaction i updates s :
  bankBalanceCents (updateTransaction i updates s) = bankBalanceCents s
  ∧ settings (updateTransaction i updates s) = settings s.
Proof.
  unfold updateTransaction.
  destruct (findTransaction i (transactions s)) as [[index oldTx]|]; [simpl|done].
  by rewrite !(proj1 (settings_apply _ _ _)), !(proj2 (settings_apply _ _ _)).
Qed.

(** X4: [updateTransaction] replaces the transaction in place: the list
    keeps its length and every other entry, the new entry keeps id and
    timestamp (and the amount, when the patch gives none) and has the
    form the constructor gives; every envelope balance is the old one
    with the effect of the old transaction taken out and the effect of
    the new one put in, and nothing else of an envelope changes.  An id
    that is not found changes nothing. *)
Theorem updateTransaction_spec (i : string) (updates : TransactionUpdates)
    (s : State) :
  (∀ index old,
     findTransaction i (transactions s) = Some (index, old) →
     ∃ new,
       transactions (updateTransaction i updates s)
       = <[index := new]> (transactions s)
       ∧ txId new = txId old ∧ timestamp new = timestamp old
       ∧ constructed new
       ∧ (updAmountDollars updates = None → amountCents new = amountCents old)
       ∧ (∀ d, updAmountDollars updates = Some d →
            amountCents new = dollarsToCents d)
       ∧ ∀ r e, envelopes s !! r = Some e →
           envelopes (updateTransaction i updates s) !! r
           = Some (setBalanceCents
                     (balanceCents e - balanceDelta old 1 (envelopes s) r
                      + balanceDelta new 1 (envelopes s) r) e))
  ∧ (findTransaction i (transactions s) = None →
     updateTransaction i updates s = s).
Proof.
  split; [|intros Hnone; unfold updateTransaction; by rewrite Hnone].
  intros index old Hfind. unfold updateTransaction. rewrite Hfind.
  set (new := newTransaction _ _ _ _ _ _). exists new.
  cbn [transactions setTransactions envelopes].
  rewrite !transactions_apply.
  split; [done|]. split; [done|]. split; [done|].
  split; [apply newTransaction_constructed|].
  split; [by intros Hnone; subst new; simpl; rewrite Hnone|].
  split; [by intros d Hd; subst new; simpl; rewrite Hd|].
  intros r e Hr. rewrite !apply_lookup, Hr. simpl. f_equal.
  unfold balanceDelta. rewrite !(resolve_ids _ _ _ (ids_apply old (-1) s)).
  repeat case_decide; envelope_eq.
Qed.




Lemma ledger_deleteTransaction i s :
  bankBalanceCents (deleteTransaction i s) = bankBalanceCents s
  ∧ settings (deleteTransaction i s) = settings s.
Proof.
  assert (Hre : ∀ o s0,
    bankBalanceCents (reactivate o s0) = bankBalanceCents s0
    ∧ settings (reactivate o s0) = settings s0).
  { intros o s0. unfold reactivate. repeat case_match; done. }
  unfold deleteTransaction.
  destruct (findTransaction i (transactions s)) as [[index tx]|]; [simpl|done].
  rewrite !(proj1 (settings_apply _ _ _)), !(proj2 (settings_apply _ _ _)).
  by rewrite !(proj1 (Hre _ _)), !(proj2 (Hre _ _)).
Qed.








(** X7: [deleteEnvelope] is a soft delete and refuses quietly: it never
    removes, adds or reorders an envelope; it changes nothing when the id
    is unknown, the envelope is a core envelope, there is no Income
    envelope, or the confirmation for a nonzero balance is declined; and
    for an envelope with a zero balance it records no transaction and
    moves no money. *)
Theorem deleteEnvelope_soft (i : string) (ok : bool) (freshId now : string)
    (s : State) :
  envId <$> envelopes (deleteEnvelope i ok freshId now s) = envId <$> envelopes s
  ∧ (findById i (envelopes s) = None → deleteEnvelope i ok freshId now s = s)
  ∧ (getIncomeEnvelope s = None → deleteEnvelope i ok freshId now s = s)
  ∧ ∀ r e, findById i (envelopes s) = Some (r, e) →
      (isCoreEnvelope e = true → deleteEnvelope i ok freshId now s = s)
      ∧ (balanceCents e ≠ 0 → ok = false → deleteEnvelope i ok freshId now s = s)
      ∧ (balanceCents e = 0 →
           transactions (deleteEnvelope i ok freshId now s) = transactions s
           ∧ balanceCents <$> envelopes (deleteEnvelope i ok freshId now s)
             = balanceCents <$> envelopes s).
Proof.
  split; [|split; [|split]].
  - symmetry. apply coreStable_ids, deleteEnvelope_coreStable.
  - intros Hnone. unfold deleteEnvelope. by rewrite Hnone.
  - intros Hnone. unfold deleteEnvelope. rewrite Hnone.
    destruct (findById i (envelopes s)) as [[r e]|]; [|done].
    by destruct (isCoreEnvelope e).
  - intros r e Hfind. unfold deleteEnvelope. rewrite Hfind.
    split; [by intros ->|]. split.
    + intros Hbal ->. destruct (isCoreEnvelope e); [done|].
      destruct (getIncomeEnvelope s) as [[ri inc]|]; [|done].
      by case_decide.
    + intros Hbal. destruct (isCoreEnvelope e); [done|].
      destruct (getIncomeEnvelope s) as [[ri inc]|]; [|done].
      case_decide; [done|]. split; [done|].
      rewrite envelopes_mutate. apply list_eq. intros k.
      rewrite !list_lookup_fmap, list_lookup_alter.
      case_decide; [subst|done]. by destruct (envelopes s !! k).
Qed.

(** X8: [addIncome] does nothing without an Income envelope; with one,
    in a state whose envelope ids identify, an amount that does not
    convert to zero is added to the balance of Income and to nothing
    else, and one transaction from outside to Income over that amount is
    recorded, with the note or, for an empty note, "Income". *)
Theorem addIncome_spec (freshId now : string) (amountDollars : Q)
    (nt : option string) (s : State) :
  (getIncomeEnvelope s = None → addIncome freshId now amountDollars nt s = s)
  ∧ ∀ ri inc,
      getIncomeEnvelope s = Some (ri, inc) →
      wellFormedIds (envelopes s) →
      dollarsToCents amountDollars ≠ 0 →
      transactions (addIncome freshId now amountDollars nt s)
      = transactions s
        ++ [mkTransaction freshId now None (Some (envId inc))
              (dollarsToCents amountDollars) (default "Income" (orNull nt))]
      ∧ ∀ r e, envelopes s !! r = Some e →
          envelopes (addIncome freshId now amountDollars nt s) !! r
          = Some (if decide (r = ri)
                  then setBalanceCents
                         (balanceCents e + dollarsToCents amountDollars) e
                  else e).
Proof.
  split; [intros Hnone; unfold addIncome; by rewrite Hnone|].
  intros ri inc Hinc Hwf Hz. unfold addIncome. rewrite Hinc.
  pose proof (findWhere_Some _ _ _ _ Hinc) as [Hri _].
  pose proof (wellFormedIds_nonempty _ _ _ Hwf Hri) as Hne.
  split.
  - rewrite transactions_addTransaction. case_decide; [done|].
    unfold newTransaction. by rewrite !(orNull_Some_ne _ Hne).
  - intros r e Hr. unfold addTransaction. case_decide; [done|].
    cbn [envelopes setTransactions]. rewrite apply_lookup, Hr.
    cbn [fmap option_fmap option_map]. f_equal.
    unfold balanceDelta, newTransaction.
    cbn [fromEnvelopeId toEnvelopeId amountCents].
    rewrite !(orNull_Some_ne _ Hne), (resolve_wellFormed _ _ _ Hwf Hri).
    unfold resolve at 1. simpl.
    repeat case_decide; simplify_eq; envelope_eq.
Qed.

(** ** The registry *)

(** X9: [updateEnvelope] never changes an id or a balance; on a core
    envelope it changes neither name, target nor [isActive]; it touches
    no envelope but the one found, no transaction, and nothing at all
    when the id is unknown. *)
Theorem updateEnvelope_protects (i : string) (updates : EnvelopeUpdates)
    (s : State) :
  (findById i (envelopes s) = None → updateEnvelope i updates s = s)
  ∧ transactions (updateEnvelope i updates s) = transactions s
  ∧ ∀ r e, envelopes s !! r = Some e →
      ∃ e', envelopes (updateEnvelope i updates s) !! r = Some e'
        ∧ envId e' = envId e ∧ balanceCents e' = balanceCents e
        ∧ (isCoreEnvelope e = true →
             name e' = name e ∧ targetCents e' = targetCents e
             ∧ isActive e' = isActive e)
        ∧ (fst <$> findById i (envelopes s) ≠ Some r → e' = e).
Proof.
  split; [intros Hnone; unfold updateEnvelope; by rewrite Hnone|].
  split; [apply transactions_updateEnvelope|].
  intros r e Hr. unfold updateEnvelope.
  destruct (findById i (envelopes s)) as [[env x]|] eqn:Hfind;
    [|exists e; by rewrite Hr].
  apply findById_Some in Hfind as [Henv _].
  destruct (decide (env = r)) as [->|Hne].
  - assert (x = e) as -> by congruence.
    destruct updates as [uName uTarget uIncome uOverflow uCard uActive].
    destruct (isCoreEnvelope e) eqn:Hcore;
      destruct uName, uTarget, uIncome, uOverflow, uCard, uActive; simpl;
      rewrite ?list_lookup_alter_eq, Hr; simpl; eexists; (split; [done|]);
      split_and!; try done; by intros [].
  - assert (Hother : ∀ f (l : list Envelope), alter f env l !! r = l !! r)
      by (intros; by apply list_lookup_alter_ne).
    exists e.
    destruct updates as [uName uTarget uIncome uOverflow uCard uActive].
    destruct (isCoreEnvelope x);
      destruct uName, uTarget, uIncome, uOverflow, uCard, uActive; simpl;
      rewrite ?Hother, Hr; done.
Qed.

Section kept.
Context (R : Envelope → Envelope → Prop).
Hypothesis R_refl : ∀ e, R e e.
Hypothesis R_trans : ∀ e1 e2 e3, R e1 e2 → R e2 e3 → R e1 e3.

Lemma keptInPlace_trans l1 l2 l3 :
  keptInPlace R l1 l2 → keptInPlace R l2 l3 → keptInPlace R l1 l3.
Proof.
  intros H12 H23 r e Hr. destruct (H12 r e Hr) as (e2 & Hr2 & HR).
  destruct (H23 r e2 Hr2) as (e3 & Hr3 & HR'). eauto.
Qed.

Lemma keptInPlace_keepFirst p clear l :
  (∀ e, R e (clear e)) → keptInPlace R l (keepFirst p clear l).
Proof.
  intros Hclear. induction l as [|a l IH]; intros r e Hr; [done|]. simpl.
  destruct (p a); destruct r as [|r]; simplify_eq/=; eauto.
  rewrite list_lookup_fmap, Hr. simpl. destruct (p e); eauto.
Qed.

Lemma keptInPlace_ensureOne p fresh l :
  (∀ v e, R e (setIsActive v e)) → (∀ v e, R e (setTargetCents v e)) →
  keptInPlace R l (ensureOne p fresh l).
Proof.
  intros Ha Ht r e Hr. unfold ensureOne.
  destruct (findWhere p l) as [[k x]|].
  - rewrite settle_lookup, Hr. simpl. eexists. split; [done|].
    case_decide; [|done]. eapply R_trans; [apply Ht|apply Ha].
  - exists e. split; [|done]. by apply lookup_app_l_Some.
Qed.
End kept.

Lemma length_keepFirst p clear l : length (keepFirst p clear l) = length l.
Proof.
  induction l as [|a l IH]; simpl; [done|].
  destruct (p a); simpl; [by rewrite length_fmap|by rewrite IH].
Qed.

Lemma length_ensureOne p fresh l :
  (length l ≤ length (ensureOne p fresh l) ≤ length l + 1)%nat.
Proof.
  unfold ensureOne. destruct (findWhere p l) as [[k x]|].
  - rewrite !length_alter. lia.
  - rewrite length_app. simpl. lia.
Qed.

(** X10: from any state, [ensureCoreEnvelopes] establishes exactly one
    Income and one Overflow envelope, both active and without target, and
    does so gently: every envelope stays at its place and keeps its id,
    name, balance and card flag, at most two envelopes are appended, and
    transactions, bank balance and settings are untouched. *)
Theorem ensureCoreEnvelopes_repairs (s : State) :
  CoreInvariant (envelopes (ensureCoreEnvelopes s))
  ∧ keptInPlace sameAccount (envelopes s) (envelopes (ensureCoreEnvelopes s))
  ∧ (length (envelopes s) ≤ length (envelopes (ensureCoreEnvelopes s))
     ≤ length (envelopes s) + 2)%nat
  ∧ transactions (ensureCoreEnvelopes s) = transactions s
  ∧ bankBalanceCents (ensureCoreEnvelopes s) = bankBalanceCents s
  ∧ settings (ensureCoreEnvelopes s) = settings s.
Proof.
  split; [apply ensureCoreEnvelopes_establishes|].
  split; [|split; [|apply ensureCoreEnvelopes_ledger]].
  - assert (Htrans : ∀ e1 e2 e3,
      sameAccount e1 e2 → sameAccount e2 e3 → sameAccount e1 e3).
    { unfold sameAccount. intros e1 e2 e3 (?&?&?&?) (?&?&?&?).
      split_and!; congruence. }
    rewrite ensureCoreEnvelopes_envelopes.
    eapply (keptInPlace_trans sameAccount Htrans);
      [|by apply keptInPlace_ensureOne].
    eapply (keptInPlace_trans sameAccount Htrans);
      [|by apply keptInPlace_ensureOne].
    eapply (keptInPlace_trans sameAccount Htrans);
      [|by apply keptInPlace_keepFirst].
    by apply keptInPlace_keepFirst.
  - rewrite ensureCoreEnvelopes_envelopes.
    pose proof (length_ensureOne isOverflow
      (newEnvelope "env_overflow" "Overflow" 0 0 (coreFlags false true))
      (ensureOne isIncome
         (newEnvelope "env_income" "Income" 0 0 (coreFlags true false))
         (keepFirst isOverflow (setIsOverflow false)
            (keepFirst isIncome (setIsIncome false) (envelopes s))))).
    pose proof (length_ensureOne isIncome
      (newEnvelope "env_income" "Income" 0 0 (coreFlags true false))
      (keepFirst isOverflow (setIsOverflow false)
         (keepFirst isIncome (setIsIncome false) (envelopes s)))).
    rewrite !length_keepFirst in *. lia.
Qed.

Lemma findWhere_fst_ext (p : Envelope → bool) (l1 l2 : list Envelope) :
  p <$> l1 = p <$> l2 → fst <$> findWhere p l1 = fst <$> findWhere p l2.
Proof.
  intros Heq. unfold findWhere.
  pose proof (list_find_fmap p (λ b, b = true) l1) as H1.
  pose proof (list_find_fmap p (λ b, b = true) l2) as H2.
  rewrite Heq, H2 in H1. unfold compose in H1.
  destruct (list_find (λ e, p e = true) l1) as [[]|],
    (list_find (λ e, p e = true) l2) as [[]|]; simpl in *; congruence.
Qed.

Lemma findWhere_keepFirst p clear l :
  fst <$> findWhere p (keepFirst p clear l) = fst <$> findWhere p l.
Proof.
  unfold findWhere. induction l as [|a l IH]; [done|]. simpl.
  destruct (p a) eqn:Ha; simpl.
  - by rewrite !decide_True.
  - rewrite !decide_False by congruence.
    destruct (list_find (λ e, p e = true) (keepFirst p clear l)) as [[]|],
      (list_find (λ e, p e = true) l) as [[]|]; simpl in *; congruence.
Qed.

Lemma findWhere_ensureOne (p q : Envelope → bool) fresh l r :
  (∀ v e, q (setIsActive v e) = q e) → (∀ v e, q (setTargetCents v e) = q e) →
  fst <$> findWhere q l = Some r →
  fst <$> findWhere q (ensureOne p fresh l) = Some r.
Proof.
  intros Ha Ht Hfind. unfold ensureOne.
  destruct (findWhere p l) as [[k x]|].
  - rewrite <- Hfind. apply findWhere_fst_ext.
    apply list_eq. intros j. rewrite !list_lookup_fmap, settle_lookup.
    destruct (l !! j); [simpl|done]. case_decide; [|done].
    by rewrite Ha, Ht.
  - unfold findWhere in *.
    destruct (list_find (λ e, q e = true) l) as [[j y]|] eqn:Hq;
      simplify_eq/=.
    by rewrite (list_find_app_l _ _ _ _ _ Hq).
Qed.

(** X11: the duplicate repair keeps the first: when some envelope is
    flagged Income, the first one so flagged is the Income envelope after
    [ensureCoreEnvelopes], and likewise for Overflow. *)
Theorem ensureCoreEnvelopes_first_found (s : State) (r : nat) :
  (fst <$> findWhere isIncome (envelopes s) = Some r →
   fst <$> getIncomeEnvelope (ensureCoreEnvelopes s) = Some r)
  ∧ (fst <$> findWhere isOverflow (envelopes s) = Some r →
     fst <$> getOverflowEnvelope (ensureCoreEnvelopes s) = Some r).
Proof.
  unfold getIncomeEnvelope, getOverflowEnvelope.
  rewrite ensureCoreEnvelopes_envelopes. split; intros Hfind.
  - apply findWhere_ensureOne; [done..|].
    apply findWhere_ensureOne; [done..|].
    rewrite (findWhere_fst_ext isIncome _
      (keepFirst isIncome (setIsIncome false) (envelopes s)))
      by (by apply keepFirst_fmap).
    by rewrite findWhere_keepFirst.
  - apply findWhere_ensureOne; [done..|].
    apply findWhere_ensureOne; [done..|].
    rewrite findWhere_keepFirst.
    rewrite (findWhere_fst_ext isOverflow _ (envelopes s))
      by (by apply keepFirst_fmap).
    done.
Qed.

(** ** Garbage collection and allocation keep the books *)

Lemma sumBy_filter_filter (p keep : Envelope → bool) l :
  (∀ e, keep e = false → p e = true → balanceCents e = 0) →
  sumBy balanceCents (filter (λ x, p x = true) (filter (λ x, keep x = true) l))
  = sumBy balanceCents (filter (λ x, p x = true) l).
Proof.
  intros Hk. induction l as [|e l IH]; [done|].
  rewrite (filter_cons (λ x, keep x = true)).
  destruct (keep e) eqn:Hkeep; case_decide; try done.
  - by rewrite !sumBy_filter_cons, IH.
  - rewrite sumBy_filter_cons, IH. destruct (p e) eqn:Hp; [|done].
    rewrite (Hk e Hkeep Hp). lia.
Qed.

Lemma keepEnvelope_false used e :
  keepEnvelope used e = false →
  isCoreEnvelope e = false ∧ isActive e = false ∧ balanceCents e = 0
  ∧ envId e ∉ used.
Proof.
  unfold keepEnvelope. destruct (isCoreEnvelope e); [done|].
  destruct (isActive e); [done|]. repeat case_bool_decide; done.
Qed.

(** X12: the garbage collector loses no money and no target: the total
    over the active envelopes, the sum of all balances and the total of
    allocations are what they were, and transactions, bank balance and
    settings are untouched. *)
Theorem cleanupUnusedEnvelopes_keeps_totals (s : State) :
  getTotalEnvelopesBalanceCents (cleanupUnusedEnvelopes s)
  = getTotalEnvelopesBalanceCents s
  ∧ sumBy balanceCents (envelopes (cleanupUnusedEnvelopes s))
    = sumBy balanceCents (envelopes s)
  ∧ eligibleTargetsCents (cleanupUnusedEnvelopes s) = eligibleTargetsCents s
  ∧ transactions (cleanupUnusedEnvelopes s) = transactions s
  ∧ bankBalanceCents (cleanupUnusedEnvelopes s) = bankBalanceCents s
  ∧ settings (cleanupUnusedEnvelopes s) = settings s.
Proof.
  unfold getTotalEnvelopesBalanceCents, eligibleTargetsCents,
    cleanupUnusedEnvelopes. simpl.
  set (keep := keepEnvelope (usedIds (transactions s))).
  split_and!; try done.
  - apply sumBy_filter_filter. intros e Hk _.
    by apply keepEnvelope_false in Hk as (_ & _ & ? & _).
  - induction (envelopes s) as [|e l IH]; [done|].
    rewrite filter_cons. destruct (keep e) eqn:Hk; case_decide; try done.
    + by rewrite !sumBy_cons, IH.
    + apply keepEnvelope_false in Hk as (_ & _ & Hz & _).
      rewrite sumBy_cons, IH, Hz. lia.
  - induction (envelopes s) as [|e l IH]; [done|].
    rewrite (filter_cons (λ x, keep x = true)).
    destruct (keep e) eqn:Hk; case_decide; try done.
    + rewrite !(filter_cons (λ x, isAllocationTarget x = true)).
      case_decide; [|done]. by rewrite !sumBy_cons, IH.
    + apply keepEnvelope_false in Hk as (_ & Hact & _ & _).
      rewrite (filter_cons (λ x, isAllocationTarget x = true)).
      rewrite decide_False; [done|].
      unfold isAllocationTarget. by rewrite Hact.
Qed.

Lemma list_find_filter_snd {A} (P Q : A → Prop)
    `{∀ x, Decision (P x)} `{∀ x, Decision (Q x)} (l : list A) :
  (∀ x, P x → Q x) →
  snd <$> list_find P (filter Q l) = snd <$> list_find P l.
Proof.
  intros HPQ. induction l as [|a l IH]; [done|].
  rewrite filter_cons. simpl.
  destruct (decide (P a)) as [HP|HP].
  - rewrite decide_True by auto. simpl. by rewrite decide_True.
  - destruct (decide (Q a)); simpl.
    + rewrite decide_False by done.
      destruct (list_find P (filter Q l)) as [[]|], (list_find P l) as [[]|];
        simpl in *; congruence.
    + destruct (list_find P (filter Q l)) as [[]|], (list_find P l) as [[]|];
        simpl in *; congruence.
Qed.

(** X13: the garbage collector orphans no transaction: an envelope id
    that a remaining transaction carries is looked up to the same
    envelope after the collection as before. *)
Theorem cleanupUnusedEnvelopes_keeps_references (s : State)
    (tx : Transaction) (i : string) :
  tx ∈ transactions s →
  orNull (fromEnvelopeId tx) = Some i ∨ orNull (toEnvelopeId tx) = Some i →
  snd <$> findById i (envelopes (cleanupUnusedEnvelopes s))
  = snd <$> findById i (envelopes s).
Proof.
  intros Hin Href. unfold cleanupUnusedEnvelopes, findById. simpl.
  apply list_find_filter_snd. intros e <-. unfold keepEnvelope.
  destruct (isCoreEnvelope e); [done|]. destruct (isActive e); [done|].
  case_bool_decide; [done|]. rewrite bool_decide_true; [done|].
  apply usedIds_spec, Exists_exists. eauto.
Qed.

Lemma allocate_loop_total (income : nat) (freshId now : string)
    (refs : list nat) :
  ∀ acc,
    wellFormedIds (envelopes acc) →
    (∃ inc, envelopes acc !! income = Some inc ∧ isActive inc = true) →
    Forall (λ r, ∃ e, envelopes acc !! r = Some e ∧ isActive e = true
                      ∧ 0 < targetCents e) refs →
    getTotalEnvelopesBalanceCents
      (forEachRef refs
         (λ env acc,
            match envelopes acc !! env, envelopes acc !! income with
            | Some e, Some inc =>
                let amountDollars := centsAsDollars (targetCents e) in
                addTransaction freshId now (Some (envId inc)) (Some (envId e))
                  amountDollars "Auto allocation" false acc
            | _, _ => acc
            end)
         acc)
    = getTotalEnvelopesBalanceCents acc.
Proof.
  induction refs as [|r refs IH]; intros acc Hwf (inc & Hinc & Hact) Hrefs;
    [done|].
  apply Forall_cons in Hrefs as [(e & Hr & He & Hpos) Hrefs].
  rewrite forEachRef_cons. cbv beta. rewrite Hr, Hinc. cbv zeta.
  set (acc1 := addTransaction _ _ _ _ _ _ _ _).
  assert (Hst : coreStable (envelopes acc) (envelopes acc1))
    by apply addTransaction_coreStable.
  assert (Hactive : ∀ j x, envelopes acc !! j = Some x → isActive x = true →
    0 < targetCents x →
    ∃ y, envelopes acc1 !! j = Some y ∧ isActive y = true ∧ 0 < targetCents y).
  { intros j x Hj Hx Ht. subst acc1.
    rewrite addTransaction_unlogged
      by (rewrite dollarsToCents_centsAsDollars; lia).
    rewrite apply_lookup, Hj. simpl. eauto. }
  assert (Hactive' : ∀ j x, envelopes acc !! j = Some x → isActive x = true →
    ∃ y, envelopes acc1 !! j = Some y ∧ isActive y = true).
  { intros j x Hj Hx. subst acc1.
    rewrite addTransaction_unlogged
      by (rewrite dollarsToCents_centsAsDollars; lia).
    rewrite apply_lookup, Hj. simpl. eauto. }
  rewrite IH.
  - subst acc1. rewrite total_addTransaction.
    unfold resolvesToActive.
    rewrite (resolve_wellFormed _ _ _ Hwf Hinc),
      (resolve_wellFormed _ _ _ Hwf Hr), Hinc, Hr. simpl.
    rewrite Hact, He. lia.
  - apply (wellFormedIds_ext (envelopes acc)); [|done].
    by apply coreStable_ids.
  - by apply (Hactive' income inc).
  - eapply Forall_impl; [exact Hrefs|]. intros j (x & Hj & Hx & Ht).
    by apply (Hactive j x).
Qed.

(** X14: auto-allocation only moves money: in a state whose envelope ids
    identify and whose Income envelope is active, the total over the
    active envelopes is the same after [autoAllocate] as before, whether
    or not the confirmation is granted; and a declined confirmation
    changes nothing at all. *)
Theorem autoAllocate_keeps_total (ok : bool) (freshId now : string)
    (s : State) (ri : nat) (inc : Envelope) :
  getIncomeEnvelope s = Some (ri, inc) →
  isActive inc = true →
  wellFormedIds (envelopes s) →
  getTotalEnvelopesBalanceCents (autoAllocate ok freshId now s)
  = getTotalEnvelopesBalanceCents s
  ∧ autoAllocate false freshId now s = s.
Proof.
  intros Hinc Hact Hwf. unfold autoAllocate. rewrite Hinc.
  split; [|by case_decide].
  case_decide; [done|]. destruct ok; [cbn [negb]|done].
  apply allocate_loop_total; [done|..].
  - apply findWhere_Some in Hinc as [Hri _]. eauto.
  - apply Forall_forall. intros j Hj.
    apply elem_of_filterRefs in Hj as (x & Hx & Htarget).
    exists x. split; [done|]. unfold isAllocationTarget in Htarget.
    apply andb_true_iff in Htarget as [Htarget Hpos].
    apply andb_true_iff in Htarget as [Htarget _].
    apply andb_true_iff in Htarget as [Hactive _].
    split; [done|]. by apply Z.ltb_lt.
Qed.

(** ** Loading, saving and start-up *)

Lemma filter_all {A} (P : A → Prop) `{∀ x, Decision (P x)} (l : list A) :
  Forall P l → filter P l = l.
Proof.
  induction 1 as [|x l Hx _ IH]; [done|].
  by rewrite filter_cons, decide_True, IH.
Qed.

Lemma Forall_filter_self {A} (P : A → Prop) `{∀ x, Decision (P x)} (l : list A) :
  Forall P (filter P l).
Proof. apply Forall_forall. by intros x [? _]%list_elem_of_filter. Qed.

Lemma Forall_filter_keep {A} (P Q : A → Prop) `{∀ x, Decision (Q x)} (l : list A) :
  Forall P l → Forall P (filter Q l).
Proof.
  intros Hall. apply Forall_forall. intros x [_ Hx]%list_elem_of_filter.
  by apply (proj1 (Forall_forall _ _) Hall).
Qed.

(** X15: whatever is stored, [loadState] yields transactions in the form
    the constructor gives them (envelope ids [null] or non-empty); it
    keeps the number and order of the stored envelopes and transactions,
    and a missing or unreadable blob gives the empty state. *)
Theorem loadState_constructs (raw : option ParsedState) :
  Forall constructed (transactions (loadState raw))
  ∧ length (envelopes (loadState raw))
    = length (default [] (raw ≫= pEnvelopes))
  ∧ txId <$> transactions (loadState raw)
    = ptId <$> default [] (raw ≫= pTransactions)
  ∧ envId <$> envelopes (loadState raw)
    = pId <$> default [] (raw ≫= pEnvelopes)
  ∧ (raw = None → loadState raw = newState).
Proof.
  destruct raw as [parsed|]; simpl; [|by split_and!].
  split_and!; try done.
  - apply Forall_fmap, Forall_true. intros t. apply newTransaction_constructed.
  - by rewrite length_fmap.
  - rewrite <- list_fmap_compose. by apply list_fmap_ext.
  - rewrite <- list_fmap_compose. by apply list_fmap_ext.
Qed.

Lemma load_after_save (s : State) :
  Forall constructed (transactions s) → loadState (saveState s) = s.
Proof.
  intros Hwf. unfold loadState, saveState. apply state_eq; simpl; try done.
  - rewrite <- list_fmap_compose. rewrite <- (list_fmap_id (envelopes s)) at 2.
    apply list_fmap_ext. intros _ e _. by destruct e.
  - rewrite <- list_fmap_compose. rewrite <- (list_fmap_id (transactions s)) at 2.
    apply list_fmap_ext. intros j t Hj. simpl.
    apply constructed_rebuild, (proj1 (Forall_lookup _ _) Hwf j t Hj).
Qed.

(** X16: what [saveState] stores, [loadState] reads back as the same
    state, provided the transactions have the form the constructor gives
    them. *)
Theorem loadState_saveState (s : State) :
  Forall constructed (transactions s) → loadState (saveState s) = s.
Proof. apply load_after_save. Qed.

Lemma init_transactions clock raw :
  transactions (init clock raw)
  = filter (λ tx, ¬ lexEarlier (timestamp tx)
                    (clock (retentionWindow (loadState raw))))
      (transactions (loadState raw)).
Proof.
  unfold init, cleanupUnusedEnvelopes, pruneOldTransactions, retentionWindow.
  simpl. destruct (ensureCoreEnvelopes_ledger (loadState raw)) as (-> & _ & ->).
  apply list_filter_iff. intros tx. apply leb_not_earlier.
Qed.

Lemma init_ledger clock raw :
  settings (init clock raw) = settings (loadState raw)
  ∧ bankBalanceCents (init clock raw) = bankBalanceCents (loadState raw).
Proof.
  unfold init, cleanupUnusedEnvelopes, pruneOldTransactions. simpl.
  by destruct (ensureCoreEnvelopes_ledger (loadState raw)) as (_ & -> & ->).
Qed.

Lemma init_invariants clock raw :
  CoreInvariant (envelopes (init clock raw))
  ∧ Forall constructed (transactions (init clock raw)).
Proof.
  split.
  - unfold init. apply cleanupUnusedEnvelopes_invariant.
    apply ensureCoreEnvelopes_establishes.
  - rewrite init_transactions. apply Forall_filter_keep.
    destruct raw as [parsed|]; simpl; [|done].
    apply Forall_fmap, Forall_true. intros t. apply newTransaction_constructed.
Qed.

(** X17: after start-up, whatever was stored, there is exactly one Income
    and one Overflow envelope, both active and without target; no
    remaining transaction is older than the retention cutoff; no envelope
    is left that the garbage collector would purge; and the bank balance
    and the settings are the loaded ones. *)
Theorem init_establishes (clock : Z → string) (raw : option ParsedState) :
  CoreInvariant (envelopes (init clock raw))
  ∧ Forall (λ tx, ¬ lexEarlier (timestamp tx)
                    (clock (retentionWindow (loadState raw))))
      (transactions (init clock raw))
  ∧ Forall (λ e, ¬ purgeable (transactions (init clock raw)) e)
      (envelopes (init clock raw))
  ∧ bankBalanceCents (init clock raw) = bankBalanceCents (loadState raw)
  ∧ settings (init clock raw) = settings (loadState raw).
Proof.
  destruct (init_invariants clock raw) as [Hinv Hwf].
  split; [done|]. split; [|split].
  - rewrite init_transactions. apply Forall_filter_self.
  - assert (Hkeep : Forall
      (λ e, keepEnvelope (usedIds (transactions (init clock raw))) e = true)
      (envelopes (init clock raw))).
    { unfold init at 2. unfold cleanupUnusedEnvelopes at 1.
      cbn [envelopes setEnvelopes]. apply Forall_filter_self. }
    eapply Forall_impl; [exact Hkeep|]. intros e He.
    by apply keepEnvelope_spec.
  - destruct (init_ledger clock raw) as [-> ->]. done.
Qed.

(** X18: start-up is stable: saving the state right after start-up and
    starting again at the same clock reading gives the same state. *)
Theorem init_saveState_init (clock : Z → string) (raw : option ParsedState) :
  init clock (saveState (init clock raw)) = init clock raw.
Proof.
  destruct (init_invariants clock raw) as [Hinv Hwf].
  set (s3 := init clock raw) in *.
  unfold init at 1. rewrite (load_after_save s3 Hwf).
  rewrite (ensureCoreEnvelopes_fixpoint s3 Hinv).
  assert (Hprune : pruneOldTransactions clock s3 = s3).
  { apply state_eq; try done. unfold pruneOldTransactions.
    cbn [transactions setTransactions]. apply filter_all.
    assert (Hwin : retentionWindow s3 = retentionWindow (loadState raw)).
    { unfold retentionWindow. subst s3.
      by rewrite (proj1 (init_ledger clock raw)). }
    fold (retentionWindow s3). rewrite Hwin. subst s3.
    rewrite init_transactions.
    eapply Forall_impl; [apply Forall_filter_self|].
    intros tx Htx. by apply leb_not_earlier. }
  rewrite Hprune. apply state_eq; try done.
  unfold cleanupUnusedEnvelopes. cbn [envelopes setEnvelopes].
  apply filter_all. subst s3. unfold init at 2.
  unfold cleanupUnusedEnvelopes at 1. cbn [envelopes setEnvelopes].
  apply Forall_filter_self.
Qed.

(** ** Cards and forms *)

Lemma filterRefsFrom_app p i l1 l2 :
  filterRefsFrom p i (l1 ++ l2)
  = filterRefsFrom p i l1 ++ filterRefsFrom p (i + length l1) l2.
Proof.
  revert i. induction l1 as [|e l1 IH]; intros i; simpl.
  - by rewrite Nat.add_0_r.
  - rewrite IH, Nat.add_succ_r. by destruct (p e).
Qed.

(** X19: a new credit card changes neither the core invariant nor any
    total, and auto-allocation never selects it: the selection and
    [getTotalAllocationsCents] are what they were.  Without a name and
    with the prompt cancelled or left empty, nothing changes. *)
Theorem addCreditCardEnvelope_neutral (freshId : string)
    (nm answer : option string) (s : State) :
  (CoreInvariant (envelopes s) →
   CoreInvariant (envelopes (addCreditCardEnvelope freshId nm answer s)))
  ∧ getTotalEnvelopesBalanceCents (addCreditCardEnvelope freshId nm answer s)
    = getTotalEnvelopesBalanceCents s
  ∧ getTotalAllocationsCents (addCreditCardEnvelope freshId nm answer s)
    = getTotalAllocationsCents s
  ∧ filterRefs isAllocationTarget
      (envelopes (addCreditCardEnvelope freshId nm answer s))
    = filterRefs isAllocationTarget (envelopes s)
  ∧ transactions (addCreditCardEnvelope freshId nm answer s) = transactions s
  ∧ (orNull nm = None → orNull answer = None →
     addCreditCardEnvelope freshId nm answer s = s).
Proof.
  unfold addCreditCardEnvelope.
  split_and!.
  - intros (HI & HO & Hall).
    destruct (orNull (match orNull nm with Some n => Some n | None => answer end))
      as [n|]; [simpl|done].
    split_and!.
    + rewrite countWhere_app, countWhere_cons, HI. done.
    + rewrite countWhere_app, countWhere_cons, HO. done.
    + apply Forall_app. split; [done|]. by apply Forall_singleton.
  - destruct (orNull _) as [n|]; [simpl|done].
    unfold getTotalEnvelopesBalanceCents. simpl.
    rewrite filter_app, sumBy_app.
    match goal with |- _ + ?x = _ => change x with 0 end. lia.
  - destruct (orNull _) as [n|]; [simpl|done].
    unfold getTotalAllocationsCents. simpl.
    rewrite filter_app, sumBy_app.
    match goal with |- _ + ?x = _ => change x with 0 end. lia.
  - destruct (orNull _) as [n|]; [simpl|done].
    unfold filterRefs. rewrite filterRefsFrom_app. simpl. apply app_nil_r.
  - by destruct (orNull _).
  - by intros -> ->.
Qed.

Lemma dollarsToCents_nonneg (a : Q) : (0 < a)%Q → 0 ≤ dollarsToCents a.
Proof.
  intros Ha. unfold dollarsToCents.
  change 0 with (Qfloor 0). apply Qfloor_resp_le.
  assert (Hm : (0 <= a * inject_Z 100)%Q).
  { apply Qmult_le_0_compat; [by apply Qlt_le_weak|]. by vm_compute. }
  apply (Qle_trans _ _ _ Hm).
  rewrite <- (Qplus_0_r (a * inject_Z 100)) at 1.
  apply Qplus_le_compat; [apply Qle_refl|]. by vm_compute.
Qed.

Lemma guard_positive (a : Q) :
  Qeq_bool a 0 || Qle_bool a 0 = false → (0 < a)%Q.
Proof.
  intros Hg. apply orb_false_iff in Hg as [_ Hle].
  apply Qnot_le_lt. intros H. apply Qle_bool_iff in H. congruence.
Qed.

(** X20: the transaction form stores only positive amounts: when every
    stored amount is positive, it still is after a submission; and a
    submission without an envelope on either side, with an amount that is
    not a number, or with one that is zero or negative changes nothing. *)
Theorem submitTransactionForm_positive (freshId now fromValue toValue : string)
    (amount : option Q) (nt : string) (s : State) :
  (AllPositive (transactions s) →
   AllPositive
     (transactions
        (submitTransactionForm freshId now fromValue toValue amount nt s)))
  ∧ (fromValue = ""%string → toValue = ""%string →
     submitTransactionForm freshId now fromValue toValue amount nt s = s)
  ∧ (amount = None →
     submitTransactionForm freshId now fromValue toValue amount nt s = s)
  ∧ (∀ a, amount = Some a → (a <= 0)%Q →
     submitTransactionForm freshId now fromValue toValue amount nt s = s).
Proof.
  assert (Hadd : ∀ a from to, AllPositive (transactions s) →
    Qeq_bool a 0 || Qle_bool a 0 = false →
    AllPositive (transactions (addTransaction freshId now from to a nt true s))).
  { intros a from to Hpos Hg. rewrite transactions_addTransaction.
    case_decide; [done|]. apply Forall_app. split; [done|].
    apply Forall_singleton. simpl.
    pose proof (dollarsToCents_nonneg a (guard_positive a Hg)). lia. }
  unfold submitTransactionForm. split_and!.
  - intros Hpos.
    destruct (orNull (Some fromValue)), (orNull (Some toValue)), amount as [a|];
      try done; destruct (Qeq_bool a 0 || Qle_bool a 0) eqn:Hg; try done;
      by apply Hadd.
  - intros -> ->. done.
  - intros ->. by destruct (orNull (Some fromValue)), (orNull (Some toValue)).
  - intros a -> Hle. apply Qle_bool_iff in Hle. rewrite Hle, orb_true_r.
    by destruct (orNull (Some fromValue)), (orNull (Some toValue)).
Qed.

(** X21: the Edit dialog of a transaction never stores a negative amount
    (an amount below half a cent is stored as zero): when no stored
    amount is negative, none is after an edit; and an amount that is not
    a number, zero or negative changes nothing. *)
Theorem submitTransactionEdit_nonnegative (tx : Transaction)
    (amount : option Q) (answer : option string) (s : State) :
  (Forall (λ t, 0 ≤ amountCents t) (transactions s) →
   Forall (λ t, 0 ≤ amountCents t)
     (transactions (submitTransactionEdit tx amount answer s)))
  ∧ (amount = None → submitTransactionEdit tx amount answer s = s)
  ∧ (∀ a, amount = Some a → (a <= 0)%Q →
     submitTransactionEdit tx amount answer s = s).
Proof.
  unfold submitTransactionEdit. split_and!.
  - intros Hpos. destruct amount as [a|]; [|done].
    destruct (Qeq_bool a 0 || Qle_bool a 0) eqn:Hg; [done|].
    unfold updateTransaction.
    destruct (findTransaction (txId tx) (transactions s)) as [[index old]|];
      [simpl|done].
    rewrite !transactions_apply. apply Forall_insert; [done|]. simpl.
    apply dollarsToCents_nonneg, guard_positive, Hg.
  - by intros ->.
  - intros a -> Hle. apply Qle_bool_iff in Hle. by rewrite Hle, orb_true_r.
Qed.

(** ** Bank balance, settings and the money codec *)

Lemma forEachRef_keeps {A B} (proj : State → B) (refs : list A)
    (body : A → State → State) s :
  (∀ r acc, proj (body r acc) = proj acc) →
  proj (forEachRef refs body s) = proj s.
Proof.
  intros Hbody. revert s. induction refs as [|r refs IH]; intros s; [done|].
  by rewrite forEachRef_cons, IH, Hbody.
Qed.

Lemma ledger_addTransaction freshId now from to d nt log s :
  bankBalanceCents (addTransaction freshId now from to d nt log s)
  = bankBalanceCents s
  ∧ settings (addTransaction freshId now from to d nt log s) = settings s.
Proof.
  unfold addTransaction. case_decide; [done|].
  destruct log; simpl;
    by rewrite (proj1 (settings_apply _ _ _)), (proj2 (settings_apply _ _ _)).
Qed.

(** X22: no ledger or registry operation touches the bank balance or the
    settings; [updateBankBalance] sets the bank balance to the converted
    amount and touches neither envelopes, transactions nor settings. *)
Theorem bank_balance_separate (clock : Z → string) (op : Op) (dollars : Q)
    (s : State) :
  bankBalanceCents (step clock op s) = bankBalanceCents s
  ∧ settings (step clock op s) = settings s
  ∧ updateBankBalance dollars s
    = mkState (envelopes s) (transactions s) (dollarsToCents dollars) (settings s).
Proof.
  split_and!; [| |done]; destruct op; simpl; try done.
  - unfold addEnvelope. by case_decide.
  - unfold updateEnvelope.
    destruct (findById i (envelopes s)) as [[env e]|]; [|done].
    destruct updates as [[] [] [] [] [] []], (isCoreEnvelope e); done.
  - unfold deleteEnvelope.
    destruct (findById i (envelopes s)) as [[env e]|]; [|done].
    destruct (isCoreEnvelope e); [done|].
    destruct (getIncomeEnvelope s) as [[ri inc]|]; [|done].
    case_decide; [|done]. destruct ok; [simpl|done].
    apply ledger_addTransaction.
  - apply ledger_addTransaction.
  - apply ledger_updateTransaction.
  - apply ledger_deleteTransaction.
  - unfold autoAllocate.
    destruct (getIncomeEnvelope s) as [[income ?]|]; [|done].
    case_decide; [done|]. destruct (negb ok); [done|].
    apply (forEachRef_keeps bankBalanceCents). intros r acc.
    destruct (envelopes acc !! r), (envelopes acc !! income); try done.
    apply ledger_addTransaction.
  - unfold addEnvelope. by case_decide.
  - unfold updateEnvelope.
    destruct (findById i (envelopes s)) as [[env e]|]; [|done].
    destruct updates as [[] [] [] [] [] []], (isCoreEnvelope e); done.
  - unfold deleteEnvelope.
    destruct (findById i (envelopes s)) as [[env e]|]; [|done].
    destruct (isCoreEnvelope e); [done|].
    destruct (getIncomeEnvelope s) as [[ri inc]|]; [|done].
    case_decide; [|done]. destruct ok; [simpl|done].
    apply ledger_addTransaction.
  - apply ledger_addTransaction.
  - apply ledger_updateTransaction.
  - apply ledger_deleteTransaction.
  - unfold autoAllocate.
    destruct (getIncomeEnvelope s) as [[income ?]|]; [|done].
    case_decide; [done|]. destruct (negb ok); [done|].
    apply (forEachRef_keeps settings). intros r acc.
    destruct (envelopes acc !! r), (envelopes acc !! income); try done.
    apply ledger_addTransaction.
Qed.


(** * The further properties at work on the sample states *)



Lemma updateTransaction_spec_on_lunch :
  (∃ new,
     transactions
       (updateTransaction "tx_1"
          (mkTransactionUpdates None None (Some (7 # 1)) None) overspentState)
     = <[0%nat := new]> (transactions overspentState)
     ∧ txId new = "tx_1"%string ∧ amountCents new = 700)
  ∧ updateTransaction "tx_9"
      (mkTransactionUpdates None None (Some (7 # 1)) None) overspentState
    = overspentState.
Proof.
  split.
  - destruct (proj1 (updateTransaction_spec "tx_1"
        (mkTransactionUpdates None None (Some (7 # 1)) None) overspentState)
        0%nat lunchTransaction)
      as (new & Htxs & Hid & _ & _ & _ & Hamount & _); [by vm_compute|].
    exists new. split; [exact Htxs|]. split; [exact Hid|].
    apply (Hamount (7 # 1)). reflexivity.
  - apply (proj2 (updateTransaction_spec "tx_9"
        (mkTransactionUpdates None None (Some (7 # 1)) None) overspentState)).
    by vm_compute.
Defined.



Lemma deleteEnvelope_soft_on_income :
  envId <$> envelopes mergedState = envId <$> envelopes fundedState
  ∧ deleteEnvelope "env_income" true "tx_2" "2026-10-20T09:00:00.000Z" fundedState
    = fundedState
  ∧ deleteEnvelope "env_g" false "tx_2" "2026-10-20T09:00:00.000Z" fundedState
    = fundedState.
Proof.
  split; [|split].
  - apply (proj1 (deleteEnvelope_soft "env_g" true "tx_2"
        "2026-10-20T09:00:00.000Z" fundedState)).
  - apply (proj1 (proj2 (proj2 (proj2 (deleteEnvelope_soft "env_income" true
        "tx_2" "2026-10-20T09:00:00.000Z" fundedState))) 0%nat fundedIncome
        ltac:(by vm_compute))).
    reflexivity.
  - apply (proj1 (proj2 (proj2 (proj2 (proj2 (deleteEnvelope_soft "env_g" false
        "tx_2" "2026-10-20T09:00:00.000Z" fundedState))) 2%nat fundedGroceries
        ltac:(by vm_compute)))).
    + simpl. lia.
    + reflexivity.
Defined.

Lemma addIncome_spec_on_initial :
  transactions
    (addIncome "tx_1" "2026-10-01T08:00:00.000Z" (100 # 1) None initialState)
  = [mkTransaction "tx_1" "2026-10-01T08:00:00.000Z" None (Some "env_income")
       10000 "Income"]
  ∧ addIncome "tx_1" "2026-10-01T08:00:00.000Z" (100 # 1) None freshState
    = freshState.
Proof.
  split.
  - apply (proj1 (proj2 (addIncome_spec "tx_1" "2026-10-01T08:00:00.000Z"
        (100 # 1) None initialState) 0%nat
        (mkEnvelope "env_income" "Income" 0 0 true false false true)
        ltac:(by vm_compute) wellFormedIds_initialState ltac:(by vm_compute))).
  - apply (proj1 (addIncome_spec "tx_1" "2026-10-01T08:00:00.000Z"
        (100 # 1) None freshState)).
    by vm_compute.
Defined.

Lemma updateEnvelope_protects_on_unknown :
  updateEnvelope "env_x"
    (mkEnvelopeUpdates (Some "Rent"%string) None None None None None) fundedState
  = fundedState
  ∧ ∃ e', envelopes
            (updateEnvelope "env_income"
               (mkEnvelopeUpdates (Some "Pay"%string) (Some (9 # 1)) None None
                  None (Some false))
               fundedState) !! 0%nat = Some e'
      ∧ name e' = "Income"%string ∧ targetCents e' = 0 ∧ isActive e' = true.
Proof.
  split.
  - apply (proj1 (updateEnvelope_protects "env_x"
        (mkEnvelopeUpdates (Some "Rent"%string) None None None None None)
        fundedState)).
    by vm_compute.
  - destruct (proj2 (proj2 (updateEnvelope_protects "env_income"
        (mkEnvelopeUpdates (Some "Pay"%string) (Some (9 # 1)) None None None
           (Some false))
        fundedState)) 0%nat fundedIncome ltac:(by vm_compute))
      as (e' & He' & _ & _ & Hcore & _).
    exists e'. split; [exact He'|]. apply Hcore. reflexivity.
Defined.

Lemma ensureCoreEnvelopes_first_found_on_duplicates :
  fst <$> getIncomeEnvelope (ensureCoreEnvelopes duplicatedState) = Some 0%nat.
Proof.
  apply (proj1 (ensureCoreEnvelopes_first_found duplicatedState 0)).
  by vm_compute.
Defined.

Lemma cleanupUnusedEnvelopes_keeps_references_on_merged :
  snd <$> findById "env_g" (envelopes (cleanupUnusedEnvelopes mergedState))
  = snd <$> findById "env_g" (envelopes mergedState).
Proof.
  apply (cleanupUnusedEnvelopes_keeps_references mergedState mergeTransaction).
  - apply list_elem_of_further, list_elem_of_here.
  - left. reflexivity.
Defined.

Lemma autoAllocate_keeps_total_on_unallocated :
  getTotalEnvelopesBalanceCents fundedState
  = getTotalEnvelopesBalanceCents unallocatedState.
Proof.
  apply (proj1 (autoAllocate_keeps_total true "tx_a" "2026-10-02T08:00:00.000Z"
    unallocatedState 0 unallocatedIncome ltac:(by vm_compute) eq_refl
    ltac:(split; apply (bool_decide_unpack _); by vm_compute))).
Defined.

Lemma loadState_constructs_on_nothing : loadState None = newState.
Proof. apply (proj2 (proj2 (proj2 (proj2 (loadState_constructs None))))). reflexivity. Defined.

Lemma loadState_saveState_on_merged : loadState (saveState mergedState) = mergedState.
Proof. apply loadState_saveState. forall_by_computation. Defined.

Lemma addCreditCardEnvelope_neutral_on_initial :
  CoreInvariant
    (envelopes (addCreditCardEnvelope "card_v" (Some "Visa"%string) None initialState))
  ∧ addCreditCardEnvelope "card_v" None (Some ""%string) initialState = initialState.
Proof.
  split.
  - apply (proj1 (addCreditCardEnvelope_neutral "card_v" (Some "Visa"%string)
        None initialState)).
    split; [by vm_compute|]. split; [by vm_compute|]. forall_by_computation.
  - apply (proj2 (proj2 (proj2 (proj2 (proj2 (addCreditCardEnvelope_neutral
        "card_v" None (Some ""%string) initialState)))))); reflexivity.
Defined.

Lemma submitTransactionForm_positive_on_funded :
  AllPositive
    (transactions
       (submitTransactionForm "tx_3" "2026-10-21T09:00:00.000Z" "env_g" ""
          (Some (12 # 1)) "Bread" fundedState))
  ∧ submitTransactionForm "tx_3" "2026-10-21T09:00:00.000Z" "env_g" ""
      (Some (-3 # 1)) "Bread" fundedState = fundedState.
Proof.
  split.
  - apply (proj1 (submitTransactionForm_positive "tx_3"
        "2026-10-21T09:00:00.000Z" "env_g" "" (Some (12 # 1)) "Bread" fundedState)).
    unfold AllPositive. forall_by_computation.
  - apply (proj2 (proj2 (proj2 (submitTransactionForm_positive "tx_3"
        "2026-10-21T09:00:00.000Z" "env_g" "" (Some (-3 # 1)) "Bread"
        fundedState))) (-3 # 1)); [reflexivity|by vm_compute].
Defined.

Lemma submitTransactionEdit_nonnegative_on_lunch :
  Forall (λ t, 0 ≤ amountCents t)
    (transactions
       (submitTransactionEdit lunchTransaction (Some (1 # 1000)) None
          overspentState))
  ∧ submitTransactionEdit lunchTransaction None None overspentState
    = overspentState.
Proof.
  split.
  - apply (proj1 (submitTransactionEdit_nonnegative lunchTransaction
        (Some (1 # 1000)) None overspentState)).
    forall_by_computation.
  - apply (proj1 (proj2 (submitTransactionEdit_nonnegative lunchTransaction
        None None overspentState))). reflexivity.
Defined.

Lemma constructed_preserved_on_delete :
  Forall constructed
    (transactions
       (step sampleClock
          (OpDeleteEnvelope "env_g" true "tx_2" "2026-10-20T09:00:00.000Z")
          fundedState)).
Proof. apply constructed_preserved. forall_by_computation. Defined.

